(** * zhinst-toolkit: the base instrument driver

    A shallow embedding of [src/zhinst/toolkit/driver/devices/base.py]
    (class [BaseInstrument]) and the properties its specification states
    about it.

    Conventions of the embedding.

    - A Python [str] is a [string]; a character of the string is the code
      point with the same number, so the strings of the model are the Python
      strings over U+0000..U+00FF.  [isdigit], [int] and [lower] are the
      Python functions on that range; [upper] is the Python function on that
      range except at U+00B5 and U+00FF, whose upper-case forms lie outside
      it (they are left unchanged here, and nothing below depends on them).
    - A Python [int] is a [Z]; a tuple of ints is a [list Z].  The
      interpreter's optional limit on the length of a decimal literal given
      to [int] is not modelled.
    - A parsed JSON document is a [json] value; JSON numbers are the integer
      ones.  A [dict] with string keys that the code builds is a
      [gmap string _].
    - Exceptions are values of [exception]; a computation that may raise
      returns a [result].  Methods that read or write the instance, talk to
      the data server or log are computations [M] over the instance and the
      system around it. *)

From Stdlib Require Import ZArith Bool Ascii String DecimalString.
From stdpp Require Import gmap strings list.

Open Scope Z_scope.

(** ** Exceptions and results *)

Inductive exception : Type :=
| ToolkitError (msg : string)
| ConnectionError (msg : string)
| RuntimeError (msg : string)
| TimeoutError (msg : string)
| KeyError (key : string)
| ValueError (msg : string)
| TypeError (msg : string)
| IndexError (msg : string)
| AttributeError (msg : string).

Inductive result (A : Type) : Type :=
| Ok (a : A)
| Raise (e : exception).

Arguments Ok {A} a.
Arguments Raise {A} e.

Definition bind_result {A B} (r : result A) (k : A → result B) : result B :=
  match r with
  | Ok a => k a
  | Raise e => Raise e
  end.

Notation "x ←? r ; k" := (bind_result r (λ x, k))
  (at level 20, r at level 100, k at level 200, right associativity,
   format "x  ←?  r ;  '/' k").

(** Evaluation of a generator expression into a tuple: left to right, the
    first exception ends it. *)
Fixpoint map_result {A B} (f : A → result B) (l : list A) : result (list B) :=
  match l with
  | [] => Ok []
  | x :: l' => y ←? f x; ys ←? map_result f l'; Ok (y :: ys)
  end.

Definition is_Ok {A} (r : result A) : bool :=
  match r with Ok _ => true | Raise _ => false end.

(** [except RuntimeError]: [RuntimeError] and the classes derived from it.
    [zhinst.toolkit.exceptions.ToolkitError] is declared as
    [class ToolkitError(RuntimeError)], so the clause catches it too; the
    other classes of the model derive from [OSError] ([ConnectionError],
    [TimeoutError]), [LookupError] ([KeyError], [IndexError]) or
    [Exception]. *)
Definition is_RuntimeError (e : exception) : bool :=
  match e with
  | RuntimeError _ | ToolkitError _ => true
  | _ => false
  end.

Definition is_KeyError (e : exception) : bool :=
  match e with KeyError _ => true | _ => false end.

(** ** Strings *)

Definition code (c : ascii) : N := N_of_ascii c.

Definition is_ascii_digit (c : ascii) : bool :=
  ((48 <=? code c) && (code c <=? 57))%N.

(** U+00B2, U+00B3 and U+00B9 (superscript two, three and one) have
    Numeric_Type=Digit: [str.isdigit] accepts them, [int] does not. *)
Definition is_superscript_digit (c : ascii) : bool :=
  ((code c =? 178) || (code c =? 179) || (code c =? 185))%N.

Definition char_isdigit (c : ascii) : bool :=
  is_ascii_digit c || is_superscript_digit c.

Fixpoint string_forallb (p : ascii → bool) (s : string) : bool :=
  match s with
  | EmptyString => true
  | String c s' => p c && string_forallb p s'
  end.

(** [str.isdigit()]: at least one character, and all of them digits. *)
Definition isdigit (s : string) : bool :=
  match s with
  | EmptyString => false
  | String _ _ => string_forallb char_isdigit s
  end.

Definition digit_value (c : ascii) : Z := Z.of_N (code c) - 48.

Fixpoint int_acc (acc : Z) (s : string) : Z :=
  match s with
  | EmptyString => acc
  | String c s' => int_acc (10 * acc + digit_value c) s'
  end.

(** [int(v)] for a [v] with [v.isdigit()], the only strings the code gives
    it: the decimal value when every character is a decimal digit, and
    [ValueError] otherwise; the text of the error ends in [repr(v)], which
    for such a [v] is [v] between single quotes.

    CPython refuses to convert a numeral of more than
    [sys.get_int_max_str_digits()] digits, 4300 unless the interpreter is
    told otherwise, with a [ValueError] as well.  The function below has no
    such limit: it agrees with [int] on the strings of at most
    [int_max_str_digits] characters, and it returns wherever [int] does. *)
Definition int (v : string) : result Z :=
  if isdigit v && string_forallb is_ascii_digit v then Ok (int_acc 0 v)
  else Raise (ValueError ("invalid literal for int() with base 10: '"
                          +:+ v +:+ "'")).

(** The default of [sys.get_int_max_str_digits()]. *)
Definition int_max_str_digits : nat := 4300.

(** [str(n)] for an int. *)
Definition str_of_int (n : Z) : string := NilZero.string_of_int (Z.to_int n).

(** [repr] of a tuple of ints, as an f-string prints it. *)
Fixpoint join_ints (l : list Z) : string :=
  match l with
  | [] => ""
  | [x] => str_of_int x
  | x :: l' => str_of_int x +:+ ", " +:+ join_ints l'
  end.

Definition repr_tuple (t : list Z) : string :=
  match t with
  | [x] => "(" +:+ str_of_int x +:+ ",)"
  | _ => "(" +:+ join_ints t +:+ ")"
  end.

(** [s.split(sep)] for a separator of one character. *)
Fixpoint str_split (sep : ascii) (s : string) : list string :=
  match s with
  | EmptyString => [EmptyString]
  | String c s' =>
      if Ascii.eqb c sep then EmptyString :: str_split sep s'
      else match str_split sep s' with
           | p :: ps => String c p :: ps
           | [] => [String c EmptyString]
           end
  end.

(** [l.insert(i, x)] for [0 <= i]. *)
Definition list_insert_at {A} (i : nat) (x : A) (l : list A) : list A :=
  take i l ++ x :: drop i l.

Definition lower_char (c : ascii) : ascii :=
  let n := code c in
  if ((65 <=? n) && (n <=? 90))%N then ascii_of_N (n + 32)
  else if ((192 <=? n) && (n <=? 222) && negb (n =? 215))%N
       then ascii_of_N (n + 32)
  else c.

Fixpoint lower (s : string) : string :=
  match s with
  | EmptyString => EmptyString
  | String c s' => String (lower_char c) (lower s')
  end.

Definition upper_char (c : ascii) : string :=
  let n := code c in
  if ((97 <=? n) && (n <=? 122))%N then String (ascii_of_N (n - 32)) ""
  else if ((224 <=? n) && (n <=? 254) && negb (n =? 247))%N
       then String (ascii_of_N (n - 32)) ""
  else if (n =? 223)%N then "SS"
  else String c "".

Fixpoint upper (s : string) : string :=
  match s with
  | EmptyString => EmptyString
  | String c s' => upper_char c +:+ upper s'
  end.

(** [s.startswith(p)]. *)
Fixpoint startswith (s p : string) : bool :=
  match p, s with
  | EmptyString, _ => true
  | String a p', String b s' => Ascii.eqb a b && startswith s' p'
  | String _ _, EmptyString => false
  end.

(** [p in s] for two strings. *)
Fixpoint str_contains (p s : string) : bool :=
  startswith s p ||
  match s with
  | EmptyString => false
  | String _ s' => str_contains p s'
  end.

Fixpoint string_drop (n : nat) (s : string) : string :=
  match n, s with
  | O, _ => s
  | S n', String _ s' => string_drop n' s'
  | S _, EmptyString => EmptyString
  end.

(** [s.replace(old, new)] for a non-empty [old]: the occurrences are found
    from the left and do not overlap.  [skip] counts the characters of an
    occurrence still to be passed over. *)
Fixpoint replace_from (skip : nat) (old new s : string) : string :=
  match s with
  | EmptyString => EmptyString
  | String c s' =>
      match skip with
      | S k => replace_from k old new s'
      | O =>
          if startswith s old
          then new +:+ replace_from (String.length old - 1) old new s'
          else String c (replace_from O old new s')
      end
  end.

Definition replace (s old new : string) : string := replace_from O old new s.

(** ** Version tuples *)

(** Order of two tuples of ints, [a < b]: the first position that differs
    decides, and a proper prefix is smaller. *)
Fixpoint tuple_lt (a b : list Z) : bool :=
  match a, b with
  | [], [] => false
  | [], _ :: _ => true
  | _ :: _, [] => false
  | x :: a', y :: b' => if x =? y then tuple_lt a' b' else x <? y
  end.

Definition tuple_gt (a b : list Z) : bool := tuple_lt b a.

(** [t[i]]. *)
Definition index (t : list Z) (i : nat) : result Z :=
  match t !! i with
  | Some x => Ok x
  | None => Raise (IndexError "tuple index out of range")
  end.

Definition _version_string_to_tuple (version : string) : result (list Z) :=
  let parts := str_split "." version in
  let parts :=
    if (length parts =? 3)%nat then list_insert_at 2 "0"%string parts
    else parts in
  map_result (λ v, if isdigit v then int v else Ok 0) (take 4 parts).

(** A warning given to [warnings.warn], with its category. *)
Inductive warning : Type :=
| RuntimeWarning (msg : string).

Section Versions.

(** The two constants of [zhinst.toolkit._min_version], a module of the
    package that the driver only imports. *)
Variable _MIN_LABONE_VERSION : string.
Variable _MIN_DEVICE_UTILS_VERSION : string.

Definition core_too_old_msg (major : Z) (head : list Z) : string :=
  "zhinst.core version does not match the minimum required version "
  +:+ "for zhinst.toolkit: "
  +:+ str_of_int major +:+ "." +:+ repr_tuple head +:+ " < "
  +:+ _MIN_LABONE_VERSION +:+ ". "
  +:+ "Use `pip install --upgrade zhinst` to get the latest version.".

Definition utils_too_old_msg (major minor : Z) : string :=
  "zhinst.utils version does not match the minimum required "
  +:+ "version for zhinst.toolkit: "
  +:+ str_of_int major +:+ "." +:+ str_of_int minor +:+ " < "
  +:+ _MIN_DEVICE_UTILS_VERSION +:+ "."
  +:+ "Use `pip install --upgrade zhinst.utils` to get the latest version.".

Definition _check_python_versions
    (zi_python_version zi_utils_version : list Z) : result unit :=
  min_core ←? _version_string_to_tuple _MIN_LABONE_VERSION;
  if tuple_lt (take 2 zi_python_version) min_core then
    major ←? index zi_python_version 0;
    Raise (ToolkitError (core_too_old_msg major (take 1 zi_python_version)))
  else
    min_utils ←? _version_string_to_tuple _MIN_DEVICE_UTILS_VERSION;
    if tuple_lt (take 2 zi_utils_version) min_utils then
      major ←? index zi_utils_version 0;
      minor ←? index zi_utils_version 1;
      Raise (ToolkitError (utils_too_old_msg major minor))
    else Ok tt.

End Versions.

Definition labone_older_msg (l0 l1 z0 z1 : Z) : string :=
  "The LabOne version is smaller than the zhinst.core version: "
  +:+ str_of_int l0 +:+ "." +:+ str_of_int l1 +:+ " < "
  +:+ str_of_int z0 +:+ "." +:+ str_of_int z1 +:+ ". "
  +:+ "Please install the latest/matching LabOne version from "
  +:+ "https://www.zhinst.com/support/download-center.".

Definition core_older_msg (z0 z1 l0 l1 : Z) : string :=
  "The zhinst.core version is smaller than the LabOne version: "
  +:+ str_of_int z0 +:+ "." +:+ str_of_int z1 +:+ " < "
  +:+ str_of_int l0 +:+ "." +:+ str_of_int l1 +:+ ". "
  +:+ "Please install the latest/matching version from pypi.org.".

Definition patch_mismatch_msg (l2 z2 : Z) : string :=
  "The patch version of zhinst.core and the LabOne DataServer "
  +:+ "mismatch: " +:+ str_of_int l2 +:+ " != " +:+ str_of_int z2 +:+ ".".

(** The warnings given are the value of a normal return: no warning is given
    on a path that raises. *)
Definition _check_labone_version
    (zi_python_version labone_version : list Z) : result (list warning) :=
  if tuple_lt (take 2 labone_version) (take 2 zi_python_version) then
    l0 ←? index labone_version 0;
    l1 ←? index labone_version 1;
    z0 ←? index zi_python_version 0;
    z1 ←? index zi_python_version 1;
    Raise (ToolkitError (labone_older_msg l0 l1 z0 z1))
  else if tuple_gt (take 2 labone_version) (take 2 zi_python_version) then
    z0 ←? index zi_python_version 0;
    z1 ←? index zi_python_version 1;
    l0 ←? index labone_version 0;
    l1 ←? index labone_version 1;
    Raise (ToolkitError (core_older_msg z0 z1 l0 l1))
  else
    l2 ←? index labone_version 2;
    z2 ←? index zi_python_version 2;
    if negb (l2 =? z2) then
      Ok [RuntimeWarning (patch_mismatch_msg l2 z2)]
    else Ok [].

(** ** Status flags of a device *)

Definition updating_msg : string :=
  "The device is currently updating please try again after the update "
  +:+ "process is complete".

Definition update_firmware_msg : string :=
  "The Firmware does not match the LabOne version. "
  +:+ "Please update the firmware (e.g. in the LabOne UI)".

Definition update_labone_msg : string :=
  "The Firmware does not match the LabOne version. "
  +:+ "Please update LabOne to the latest version from "
  +:+ "https://www.zhinst.com/support/download-center.".

(** Truth value of an int. *)
Definition truthy_int (n : Z) : bool := negb (n =? 0).

(** The three tests that [_check_firmware_update_status] makes on the
    [STATUSFLAGS] word of the device. *)
Definition check_status_flag (status_flag : Z) : result unit :=
  if truthy_int (Z.land status_flag (Z.shiftl 1 8)) then
    Raise (ConnectionError updating_msg)
  else if truthy_int (Z.land status_flag (Z.shiftl 1 4))
          || truthy_int (Z.land status_flag (Z.shiftl 1 5)) then
    Raise (ToolkitError update_firmware_msg)
  else if truthy_int (Z.land status_flag (Z.shiftl 1 6))
          || truthy_int (Z.land status_flag (Z.shiftl 1 7)) then
    Raise (ToolkitError update_labone_msg)
  else Ok tt.

(** ** JSON values *)

#[warnings="-register-all"] Inductive json : Type :=
| JNull
| JBool (b : bool)
| JInt (n : Z)
| JStr (s : string)
| JList (l : list json)
| JObj (d : list (string * json)).

(** Truth value of a parsed JSON value. *)
Definition truthy (j : json) : bool :=
  match j with
  | JNull => false
  | JBool b => b
  | JInt n => truthy_int n
  | JStr s => negb (String.eqb s "")
  | JList l => match l with [] => false | _ => true end
  | JObj d => match d with [] => false | _ => true end
  end.

Fixpoint dict_get {V} (k : string) (d : list (string * V)) : option V :=
  match d with
  | [] => None
  | (k', v) :: d' => if String.eqb k' k then Some v else dict_get k d'
  end.

(** [d[k] = v]: the value of an existing key is replaced in place, a new key
    goes to the end. *)
Fixpoint dict_set {V} (k : string) (v : V) (d : list (string * V))
    : list (string * V) :=
  match d with
  | [] => [(k, v)]
  | (k', v') :: d' =>
      if String.eqb k' k then (k, v) :: d' else (k', v') :: dict_set k v d'
  end.

(** [j.get(k)]; [None] is [JNull]. *)
Definition json_get (j : json) (k : string) : result json :=
  match j with
  | JObj d => Ok (default JNull (dict_get k d))
  | _ => Raise (AttributeError "object has no attribute 'get'")
  end.

(** [j[k]] for a string [k]. *)
Definition json_getitem (j : json) (k : string) : result json :=
  match j with
  | JObj d =>
      match dict_get k d with
      | Some v => Ok v
      | None => Raise (KeyError k)
      end
  | JList _ => Raise (TypeError "list indices must be integers or slices, not str")
  | JStr _ => Raise (TypeError "string indices must be integers, not 'str'")
  | _ => Raise (TypeError "object is not subscriptable")
  end.

(** [j[k] = v] for a string [k]. *)
Definition json_setitem (j : json) (k : string) (v : json) : result json :=
  match j with
  | JObj d => Ok (JObj (dict_set k v d))
  | JList _ => Raise (TypeError "list indices must be integers or slices, not str")
  | _ => Raise (TypeError "object does not support item assignment")
  end.

(** The int operand of [&]. *)
Definition json_int (j : json) : result Z :=
  match j with
  | JInt n => Ok n
  | JBool b => Ok (Z.b2z b)
  | _ => Raise (TypeError "unsupported operand type(s) for &")
  end.

(** ["Stream" in x], for the value [x] of [info.get("Properties")]. *)
Definition json_contains (needle : string) (x : json) : result bool :=
  match x with
  | JStr s => Ok (str_contains needle s)
  | JList l =>
      Ok (existsb (λ e, match e with
                        | JStr s => String.eqb s needle
                        | _ => false
                        end) l)
  | JObj d =>
      Ok (match dict_get needle d with Some _ => true | None => false end)
  | _ => Raise (TypeError "argument is not iterable")
  end.

(** ** The two substitutions that turn a node path into a key of the
    static document *)

(** [$]: the end of the string, or the place before a newline that ends
    it. *)
Definition at_end (s : string) : bool :=
  match s with
  | EmptyString => true
  | String c EmptyString => Ascii.eqb c "010"
  | String _ (String _ _) => false
  end.

(** Length of the match of [[0-9]*?$] at the start of [s]. *)
Fixpoint match_digits_end (s : string) : option nat :=
  if at_end s then Some O
  else match s with
       | String c s' =>
           if is_ascii_digit c then S <$> match_digits_end s' else None
       | EmptyString => None
       end.

(** Length of the match of [[0-9]*?\/] at the start of [s]. *)
Fixpoint match_digits_slash (s : string) : option nat :=
  match s with
  | EmptyString => None
  | String c s' =>
      if Ascii.eqb c "/" then Some 1%nat
      else if is_ascii_digit c then S <$> match_digits_slash s'
      else None
  end.

(** [(?<!values)\/[0-9]*?$] at a position: [before] holds the characters to
    the left of it, the nearest first. *)
Definition match_trailing_index (before s : string) : option nat :=
  match s with
  | String c s' =>
      if Ascii.eqb c "/" && negb (startswith before "seulav")
      then S <$> match_digits_end s'
      else None
  | EmptyString => None
  end.

(** [\/[0-9]*?\/] at a position. *)
Definition match_index_segment (before s : string) : option nat :=
  match s with
  | String c s' =>
      if Ascii.eqb c "/" then S <$> match_digits_slash s' else None
  | EmptyString => None
  end.

(** [re.sub] for a pattern that matches no empty string: the matches are
    taken from the left and do not overlap.  [m before s] is the length of
    the match at the start of [s]; [skip] counts the characters of a match
    still to be passed over. *)
Fixpoint re_sub (m : string → string → option nat) (repl : string)
    (skip : nat) (before s : string) : string :=
  match s with
  | EmptyString => EmptyString
  | String c s' =>
      match skip with
      | S k => re_sub m repl k (String c before) s'
      | O =>
          match m before s with
          | Some n => repl +:+ re_sub m repl (n - 1) (String c before) s'
          | None => String c (re_sub m repl O (String c before) s')
          end
      end
  end.

(** [node_name] of the loop of [_load_preloaded_json]. *)
Definition node_key (node : string) : string :=
  let node_name := re_sub match_trailing_index "/n" O "" (lower node) in
  re_sub match_index_segment "/n/" O "" node_name.

(** ** Computations with state and exceptions *)

(** A computation over a state [S]: it returns or raises, and either way
    leaves the state it has reached. *)
Definition M (S A : Type) : Type := S → result A * S.

Definition ret {S A} (a : A) : M S A := λ s, (Ok a, s).

Definition raise {S A} (e : exception) : M S A := λ s, (Raise e, s).

Definition bind {S A B} (m : M S A) (k : A → M S B) : M S B :=
  λ s, match m s with
       | (Ok a, s') => k a s'
       | (Raise e, s') => (Raise e, s')
       end.

Definition lift_result {S A} (r : result A) : M S A := λ s, (r, s).

(** [try: m except C: h], where [catches] tells the exceptions of class
    [C]. *)
Definition try_except {S A} (m : M S A) (catches : exception → bool)
    (h : M S A) : M S A :=
  λ s, match m s with
       | (Ok a, s') => (Ok a, s')
       | (Raise e, s') => if catches e then h s' else (Raise e, s')
       end.

Notation "x ←! m ; k" := (bind m (λ x, k))
  (at level 20, m at level 100, k at level 200, right associativity,
   format "x  ←!  m ;  '/' k").

Notation "m >>! k" := (bind m (λ _, k))
  (at level 20, k at level 200, right associativity,
   format "m  >>!  '/' k").

(** ** The collaborators of the driver *)

(** A call that the driver makes on one of its collaborators. *)
Inductive call : Type :=
| GetString (path : string)
| ListNodes (path : string)
| FullVersion
| Version
| Revision
| NewNodeTree (prefix_hide : string) (list_nodes : list string)
    (preloaded_json : option (gmap string json))
| UpdateNodes (class_name : string)
| NodeSet (path : string) (value : json) (deep : bool)
| NodeGet (path : string) (deep : bool)
| WaitForStateChange (path : string) (target : json) (timeout : Z)
| IterNodes
| SetTransaction.

Inductive log_record : Type :=
| LogWarning (msg : string)
| LogInfo (msg : string).

(** What the driver uses and does not define: the session with its data
    server, the node tree of [zhinst.toolkit.nodetree], [json.loads] and the
    resource files of the package.  [World] is the state behind them (the
    data server, the device, the node tree's buffers); a call may change it
    and may raise.  A node is addressed by its path below the root of the
    tree. *)
Record Externals : Type := {
  World : Type;
  Session : Type;
  NodeTree : Type;
  Node : Type;
  ContextManager : Type;
  (** [json.loads] *)
  json_loads : string → result json;
  (** the text of a resource file, [None] when it is no file *)
  read_text : string → World → option string;
  (** [session.daq_server.getString(path)] *)
  getString : Session → string → World → result string * World;
  (** [session.daq_server.listNodes(path, recursive=True, leavesonly=True)] *)
  listNodes : Session → string → World → result (list string) * World;
  (** [session.about.fullversion()], [.version()] and [.revision()] *)
  fullversion : Session → World → result string * World;
  version : Session → World → result string * World;
  revision : Session → World → result Z * World;
  (** [NodeTree(session.daq_server, prefix_hide, list_nodes, preloaded_json)] *)
  new_NodeTree : Session → string → list string →
                 option (gmap string json) → World → result NodeTree * World;
  (** [nodetree.update_nodes(node_parser.get(class_name, {}),
      raise_for_invalid_node=False)] *)
  update_nodes : NodeTree → string → World → result unit * World;
  (** [node(value, deep=deep)], [node()], [node(deep=True)] and
      [node.wait_for_state_change(target, timeout=timeout)] *)
  node_set : NodeTree → string → json → bool → World → result unit * World;
  node_get : NodeTree → string → World → result json * World;
  node_get_deep : NodeTree → string → World → result (json * json) * World;
  wait_for_state_change :
    NodeTree → string → json → Z → World → result unit * World;
  (** iterating over the root node, a generator: the pairs it yields when
      it comes to its end, or the exception that ends it; in this case
      [iter_yielded] gives the pairs it had yielded before it raised *)
  iter_nodes : NodeTree → World → result (list (Node * json)) * World;
  iter_yielded : NodeTree → World → list (Node * json);
  (** [nodetree.set_transaction()] *)
  root_set_transaction : NodeTree → World → result ContextManager * World
}.

Section Driver.

Variable X : Externals.

(** What lies outside the instance: the world of the collaborators, the
    calls made on them so far, the records given to the logger and the
    warnings given. *)
Record system : Type := {
  world : World X;
  calls : list call;
  logged : list log_record;
  warned : list warning
}.

(** The attributes of a [BaseInstrument]; [device_options_value] is the
    entry that [functools.cached_property] keeps for [device_options]. *)
Record instance : Type := {
  _serial : string;
  _device_type : string;
  _session : Session X;
  _options : string;
  _streaming_nodes : option (list (Node X));
  _root : NodeTree X;
  device_options_value : option json
}.

(** A call on a collaborator: it is recorded, and the world moves on. *)
Definition ext {A} (c : call) (f : World X → result A * World X)
    : M system A :=
  λ s, let (r, w) := f (world s) in
       (r, {| world := w; calls := calls s ++ [c];
              logged := logged s; warned := warned s |}).

Definition log (r : log_record) : M system unit :=
  λ s, (Ok tt, {| world := world s; calls := calls s;
                  logged := logged s ++ [r]; warned := warned s |}).

Definition warn (ws : list warning) : M system unit :=
  λ s, (Ok tt, {| world := world s; calls := calls s;
                  logged := logged s; warned := warned s ++ ws |}).

(** A method runs on the instance and the system. *)
Definition method (A : Type) : Type := M (instance * system) A.

Definition on_system {A} (m : M system A) : method A :=
  λ st, let (r, s') := m st.2 in (r, (st.1, s')).

Definition self : method instance := λ st, (Ok st.1, st).

Definition set_self (i : instance) : method unit := λ st, (Ok tt, (i, st.2)).

(** *** Properties *)

Definition serial (i : instance) : string := _serial i.
Definition session (i : instance) : Session X := _session i.
Definition device_type (i : instance) : string := _device_type i.

(** *** [_load_preloaded_json] *)

Definition unknown_node_msg (node : string) : string :=
  "unkown node " +:+ node.

(** The loop over [existing_nodes]; [copy.deepcopy] gives the entry a value
    of its own, which a value of [json] already is. *)
Fixpoint match_nodes (json_raw : json) (existing_nodes : list string)
    (preloaded_json : gmap string json) : M system (gmap string json) :=
  match existing_nodes with
  | [] => ret preloaded_json
  | node :: rest =>
      json_element ←! lift_result (json_get json_raw (node_key node));
      if truthy json_element then
        json_element ←!
          lift_result (json_setitem json_element "Node" (JStr (upper node)));
        match_nodes json_raw rest (<[lower node := json_element]> preloaded_json)
      else if negb (startswith node "/zi/") then
        log (LogWarning (unknown_node_msg node)) >>!
        match_nodes json_raw rest preloaded_json
      else match_nodes json_raw rest preloaded_json
  end.

(** The method reads [self.serial] and [self._session] only, and
    [__init__] calls it before the other attributes are set: it takes the
    two as arguments. *)
Definition _load_preloaded_json (serial : string) (session : Session X)
    (filename : string) : M system (option (gmap string json)) :=
  λ s, match read_text X filename (world s) with
       | None => (Ok None, s)
       | Some raw_file =>
           let raw_file := replace raw_file "devxxxx" (lower serial) in
           let raw_file := replace raw_file "DEVXXXX" (upper serial) in
           (json_raw ←! lift_result (json_loads X raw_file);
            existing_nodes ←!
              ext (ListNodes ("/" +:+ serial +:+ "/*"))
                  (listNodes X session ("/" +:+ serial +:+ "/*"));
            preloaded_json ←! match_nodes json_raw existing_nodes ∅;
            ret (Some preloaded_json)) s
       end.

(** *** [__init__] *)

Definition nodedoc_hf2 : string := "../../resources/nodedoc_hf2.json".

Definition __init__ (class_name : string) (serial device_type : string)
    (session : Session X) : M system instance :=
  options ←!
    try_except
      (ext (GetString ("/" +:+ serial +:+ "/features/options"))
           (getString X session ("/" +:+ serial +:+ "/features/options")))
      is_RuntimeError (ret ""%string);
  preloaded_json ←!
    (if str_contains "HF2" device_type
     then _load_preloaded_json serial session nodedoc_hf2
     else ret None);
  nodetree ←!
    ext (NewNodeTree serial ["/" +:+ serial +:+ "/*"] preloaded_json)
        (new_NodeTree X session serial ["/" +:+ serial +:+ "/*"]
                      preloaded_json);
  ext (UpdateNodes class_name) (update_nodes X nodetree class_name) >>!
  ret {| _serial := serial; _device_type := device_type;
         _session := session; _options := options;
         _streaming_nodes := None; _root := nodetree;
         device_options_value := None |}.

(** *** [factory_reset] *)

Definition factory_reset (deep : bool) (timeout : Z) : method unit :=
  i ←! self;
  on_system (ext (NodeSet "system/preset/load" (JInt 1) deep)
                 (node_set X (_root i) "system/preset/load" (JInt 1) deep)) >>!
  on_system (ext (WaitForStateChange "system/preset/busy" (JInt 0) timeout)
                 (wait_for_state_change X (_root i) "system/preset/busy"
                                        (JInt 0) timeout)) >>!
  error ←! on_system (ext (NodeGet "system/preset/error" true)
                          (node_get_deep X (_root i) "system/preset/error"));
  if truthy error.2 then
    raise (ToolkitError ("Failed to load factory preset to device "
                         +:+ upper (serial i) +:+ "."))
  else
    on_system (log (LogInfo ("Factory preset is loaded to device "
                             +:+ upper (serial i) +:+ "."))).

(** *** [_check_firmware_update_status] *)

Definition _check_firmware_update_status : method unit :=
  i ←! self;
  devices ←! on_system (ext (GetString "/zi/devices")
                            (getString X (_session i) "/zi/devices"));
  devices ←! lift_result (json_loads X devices);
  device_info ←! lift_result (json_getitem devices (upper (serial i)));
  status_flag ←! lift_result (json_getitem device_info "STATUSFLAGS");
  status_flag ←! lift_result (json_int status_flag);
  lift_result (check_status_flag status_flag).

(** *** [check_compatibility] *)

(** The constants of [zhinst.toolkit._min_version] and the version strings
    of the installed [zhinst.core] and [zhinst.utils]. *)
Variable _MIN_LABONE_VERSION : string.
Variable _MIN_DEVICE_UTILS_VERSION : string.
Variable zhinst_version_str : string.
Variable utils_version_str : string.

Definition labone_full_version (i : instance) : M system string :=
  try_except
    (ext FullVersion (fullversion X (_session i)))
    is_KeyError
    (labone_version_str ←! ext Version (version X (_session i));
     labone_revision ←! ext Revision (revision X (_session i));
     ret (labone_version_str +:+ ".0."
          +:+ string_drop 4 (str_of_int labone_revision))).

Definition check_compatibility : method unit :=
  i ←! self;
  zi_python_version ←! lift_result (_version_string_to_tuple zhinst_version_str);
  zi_utils_version ←! lift_result (_version_string_to_tuple utils_version_str);
  lift_result (_check_python_versions _MIN_LABONE_VERSION
                 _MIN_DEVICE_UTILS_VERSION zi_python_version
                 zi_utils_version) >>!
  labone_full_version ←! on_system (labone_full_version i);
  zi_python_version ←! lift_result (_version_string_to_tuple zhinst_version_str);
  labone_version ←! lift_result (_version_string_to_tuple labone_full_version);
  warnings ←! lift_result (_check_labone_version zi_python_version
                             labone_version);
  on_system (warn warnings) >>!
  _check_firmware_update_status.

(** *** [get_streamingnodes] *)

(** [self._streaming_nodes = nodes] *)
Definition with_streaming_nodes (i : instance)
    (nodes : option (list (Node X))) : instance :=
  {| _serial := _serial i; _device_type := _device_type i;
     _session := _session i; _options := _options i;
     _streaming_nodes := nodes; _root := _root i;
     device_options_value := device_options_value i |}.

(** [self._streaming_nodes.append(node)] *)
Definition append_streaming_node (node : Node X) : method unit :=
  i ←! self;
  set_self (with_streaming_nodes i
              (Some (default [] (_streaming_nodes i) ++ [node]))).

(** The body of the loop over the pairs of the tree. *)
Fixpoint scan_nodes (items : list (Node X * json)) : method unit :=
  match items with
  | [] => ret tt
  | (node, info) :: rest =>
      properties ←! lift_result (json_get info "Properties");
      is_stream ←! lift_result (json_contains "Stream" properties);
      (if is_stream then append_streaming_node node else ret tt) >>!
      scan_nodes rest
  end.

(** The run of the generator behind [for node, info in self]: the pairs that
    the loop receives, and the exception, if any, that the generator raises
    when the loop asks for the pair after them.  The body of the loop does
    nothing to the tree, so the run is taken as one call. *)
Definition iterate (root : NodeTree X)
    : M system (list (Node X * json) * option exception) :=
  λ s, match iter_nodes X root (world s) with
       | (Ok items, w) =>
           (Ok (items, None),
            {| world := w; calls := calls s ++ [IterNodes];
               logged := logged s; warned := warned s |})
       | (Raise e, w) =>
           (Ok (iter_yielded X root (world s), Some e),
            {| world := w; calls := calls s ++ [IterNodes];
               logged := logged s; warned := warned s |})
       end.

(** The list returned is the attribute itself; the model returns its
    value. *)
Definition get_streamingnodes : method (list (Node X)) :=
  i ←! self;
  match _streaming_nodes i with
  | Some nodes => ret nodes
  | None =>
      set_self (with_streaming_nodes i (Some [])) >>!
      iteration ←! on_system (iterate (_root i));
      scan_nodes iteration.1 >>!
      match iteration.2 with
      | Some e => raise e
      | None =>
          i ←! self;
          ret (default [] (_streaming_nodes i))
      end
  end.

(** *** [set_transaction] and [device_options] *)

Definition set_transaction : method (ContextManager X) :=
  i ←! self;
  on_system (ext SetTransaction (root_set_transaction X (_root i))).

(** The value that [cached_property] stores for [device_options]. *)
Definition with_device_options (i : instance) (value : option json)
    : instance :=
  {| _serial := _serial i; _device_type := _device_type i;
     _session := _session i; _options := _options i;
     _streaming_nodes := _streaming_nodes i; _root := _root i;
     device_options_value := value |}.

Definition device_options : method json :=
  i ←! self;
  match device_options_value i with
  | Some value => ret value
  | None =>
      value ←! on_system (ext (NodeGet "features/options" false)
                              (node_get X (_root i) "features/options"));
      set_self (with_device_options i (Some value)) >>!
      ret value
  end.

(** *** The operations of the facade *)

Inductive operation : Type :=
| Check_compatibility
| Factory_reset (deep : bool) (timeout : Z)
| Get_streamingnodes
| Set_transaction
| Device_options.

(** An operation run for its effect: the state it leaves, whether it returns
    or raises. *)
Definition run_operation (op : operation) (st : instance * system)
    : instance * system :=
  match op with
  | Check_compatibility => (check_compatibility st).2
  | Factory_reset deep timeout => (factory_reset deep timeout st).2
  | Get_streamingnodes => (get_streamingnodes st).2
  | Set_transaction => (set_transaction st).2
  | Device_options => (device_options st).2
  end.

Definition run_operations (ops : list operation) (st : instance * system)
    : instance * system :=
  foldl (λ st op, run_operation op st) st ops.

End Driver.

Arguments _serial {X} i.
Arguments _device_type {X} i.
Arguments _session {X} i.
Arguments _options {X} i.
Arguments _streaming_nodes {X} i.
Arguments _root {X} i.
Arguments device_options_value {X} i.
Arguments world {X} s.
Arguments calls {X} s.
Arguments logged {X} s.
Arguments warned {X} s.
Arguments serial {X} i.
Arguments session {X} i.
Arguments device_type {X} i.
Arguments with_streaming_nodes {X} i nodes.
Arguments with_device_options {X} i value.

(** ** Notions used to state the properties *)

(** A string of ASCII characters. *)
Definition is_ascii_string (s : string) : bool :=
  string_forallb (λ c, (code c <? 128)%N) s.

(** A part of a version string that is a decimal numeral. *)
Definition is_numeral (p : string) : bool :=
  negb (String.eqb p "") && string_forallb is_ascii_digit p.

(** The component that stands for a part: its decimal value when it is a
    numeral, and 0 otherwise. *)
Definition component (p : string) : Z :=
  if is_numeral p then int_acc 0 p else 0.

(** Major and minor of a version tuple. *)
Definition major_minor_lt (a0 a1 b0 b1 : Z) : Prop :=
  a0 < b0 ∨ (a0 = b0 ∧ a1 < b1).

(** Does the schema entry [info] list ["Stream"] among its properties, and
    is the question defined for it? *)
Definition stream_test (info : json) : result bool :=
  properties ←? json_get info "Properties";
  json_contains "Stream" properties.

Definition has_stream (info : json) : bool :=
  match stream_test info with
  | Ok b => b
  | Raise _ => false
  end.

(** The entry that the static document [d] gives for a listed node, with
    its [Node] field set: an object with at least one field under the
    node's key. *)
Definition entry_for (d : list (string * json)) (node : string)
    : option json :=
  match dict_get (node_key node) d with
  | Some (JObj (f :: fs)) =>
      Some (JObj (dict_set "Node" (JStr (upper node)) (f :: fs)))
  | _ => None
  end.

(** A static document every value of which is an object. *)
Definition objects_only (d : list (string * json)) : Prop :=
  Forall (λ kv, ∃ fields, kv.2 = JObj fields) d.

Definition register_node (d : list (string * json))
    (m : gmap string json) (node : string) : gmap string json :=
  match entry_for d node with
  | Some e => <[lower node := e]> m
  | None => m
  end.

(** The record that the loop logs for a node without an entry. *)
Definition unknown_node_record (node : string) : log_record :=
  LogWarning (unknown_node_msg node).

Definition skipped (d : list (string * json)) (node : string) : bool :=
  match entry_for d node with
  | Some _ => false
  | None => negb (startswith node "/zi/")
  end.

(** *** What a method leaves of the instance *)

(** [m] takes every instance to one related to it by [P], whether it
    returns or raises. *)
Definition preserves {X A} (P : relation (instance X)) (m : method X A)
    : Prop :=
  ∀ st, P st.1 (m st).2.1.

(** The attributes a method may fill in, and those it leaves alone: the
    serial, the type, the session, the options and the root stay, and a
    list of streaming nodes or a value of [device_options] that is there
    stays. *)
Definition extends {X} (i i' : instance X) : Prop :=
  _serial i' = _serial i ∧ _device_type i' = _device_type i ∧
  _session i' = _session i ∧ _options i' = _options i ∧
  _root i' = _root i ∧
  (∀ nodes, _streaming_nodes i = Some nodes →
            _streaming_nodes i' = Some nodes) ∧
  (∀ value, device_options_value i = Some value →
            device_options_value i' = Some value).

(** All attributes but the list of streaming nodes stay. *)
Definition same_but_streaming_nodes {X} (i i' : instance X) : Prop :=
  _serial i' = _serial i ∧ _device_type i' = _device_type i ∧
  _session i' = _session i ∧ _options i' = _options i ∧
  _root i' = _root i ∧
  device_options_value i' = device_options_value i.

(** ** A data server for the examples

    It serves one HF2 device, [dev1234].  Its stand-in for [json.loads]
    knows two texts: the answer of [/zi/devices], and a static document of a
    single entry that is written as the key of that entry. *)

Definition example_nodes : list string :=
  ["/dev1234/demods/3/rate"; "/dev1234/unknown/0/x"; "/zi/about/version"].

Definition example_tree : list (string * json) :=
  [("/dev1234/demods/0/sample",
    JObj [("Node", JStr "/DEV1234/DEMODS/0/SAMPLE");
          ("Properties", JStr "Read, Stream")]);
   ("/dev1234/demods/0/rate",
    JObj [("Node", JStr "/DEV1234/DEMODS/0/RATE");
          ("Properties", JStr "Read, Write, Setting")])].

Definition example_loads (status_flags : Z) (text : string) : result json :=
  if String.eqb text "devices" then
    Ok (JObj [("DEV1234", JObj [("STATUSFLAGS", JInt status_flags)])])
  else
    Ok (JObj [(text, JObj [("Node", JStr (upper text));
                           ("Properties", JStr "Read, Write, Setting")])]).

Definition example_getString (options : result string) (path : string)
    : result string :=
  if String.eqb path "/zi/devices" then Ok "devices"%string
  else if String.eqb path "/dev1234/features/options" then options
  else Raise (RuntimeError "ZIAPINotFoundException").

Definition example (status_flags : Z) (options : result string)
    : Externals := {|
  World := unit;
  Session := unit;
  NodeTree := unit;
  Node := string;
  ContextManager := unit;
  json_loads := example_loads status_flags;
  read_text := λ file _,
    if String.eqb file nodedoc_hf2 then Some "/devxxxx/demods/n/rate"%string
    else None;
  getString := λ _ path w, (example_getString options path, w);
  listNodes := λ _ _ w, (Ok example_nodes, w);
  fullversion := λ _ w, (Ok "24.10.0.64896"%string, w);
  version := λ _ w, (Ok "24.10"%string, w);
  revision := λ _ w, (Ok 241064896, w);
  new_NodeTree := λ _ _ _ _ w, (Ok tt, w);
  update_nodes := λ _ _ w, (Ok tt, w);
  node_set := λ _ _ _ _ w, (Ok tt, w);
  node_get := λ _ _ w, (Ok (JStr "MF"), w);
  node_get_deep := λ _ _ w, (Ok (JInt 0, JInt 0), w);
  wait_for_state_change := λ _ _ _ _ w, (Ok tt, w);
  iter_nodes := λ _ w, (Ok example_tree, w);
  iter_yielded := λ _ _, [];
  root_set_transaction := λ _ w, (Ok tt, w)
|}.

Definition example_start (status_flags : Z) (options : result string)
    : system (example status_flags options) :=
  {| world := tt : World (example status_flags options);
     calls := []; logged := []; warned := [] |}.

(** The instance of the device, as [__init__] leaves it. *)
Definition example_instance (status_flags : Z) (options : result string)
    : instance (example status_flags options) :=
  {| _serial := "dev1234"; _device_type := "HF2LI";
     _session := tt : Session (example status_flags options);
     _options := "";
     _streaming_nodes := None;
     _root := tt : NodeTree (example status_flags options);
     device_options_value := None |}.

(** The version string ["1.2.²"]: its third part is U+00B2. *)
Definition superscript_version : string := "1.2." +:+ String "178" "".

(** ** [__repr__] *)

(** The text after [options.replace("\n", ",")]. *)
Definition __repr__ {X} (class_name : string) (i : instance X) : string :=
  let options :=
    if negb (String.eqb (_options i) "") then "(" +:+ _options i +:+ ")"
    else ""%string in
  let options := replace options (String "010" "") "," in
  class_name +:+ "(" +:+ _device_type i +:+ options +:+ ","
  +:+ serial i +:+ ")".

(** ** Further notions used to state the properties *)

Fixpoint string_rev_append (s acc : string) : string :=
  match s with
  | EmptyString => acc
  | String c s' => string_rev_append s' (String c acc)
  end.

Definition string_rev (s : string) : string := string_rev_append s "".

(** [s.endswith(suffix)]. *)
Definition endswith (s suffix : string) : bool :=
  startswith (string_rev s) (string_rev suffix).

Fixpoint string_map (f : ascii → ascii) (s : string) : string :=
  match s with
  | EmptyString => EmptyString
  | String c s' => String (f c) (string_map f s')
  end.

Definition newline_to_comma (c : ascii) : ascii :=
  if Ascii.eqb c "010" then ","%char else c.

(** A character that can start the name of a path segment: no digit, no
    slash, no newline. *)
Definition is_name_start (c : ascii) : bool :=
  negb (is_ascii_digit c) && negb (Ascii.eqb c "/") && negb (Ascii.eqb c "010").

(** A text in which every slash is followed by the start of a name: a path
    of named segments, such as [/dev1234/demods]. *)
Fixpoint named_segments (s : string) : bool :=
  match s with
  | EmptyString => true
  | String c s' =>
      (if Ascii.eqb c "/"
       then match s' with
            | String c' _ => is_name_start c'
            | EmptyString => false
            end
       else true)
      && named_segments s'
  end.

(** No match of [m] starts inside [a], in the text [a ++ b] with [before] to
    its left. *)
Fixpoint unmatched (m : string → string → option nat)
    (before a b : string) : Prop :=
  match a with
  | EmptyString => True
  | String c a' =>
      m before (String c (a' +:+ b)) = None
      ∧ unmatched m (String c before) a' b
  end.

(** Bits 4 to 8 of the status flags. *)
Definition status_mask : Z := 496.

(** A listed node the loop of [_load_preloaded_json] can handle: the value
    that the document has under its key, if any, is an object or counts as
    false. *)
Definition node_ok (d : list (string * json)) (node : string) : Prop :=
  match dict_get (node_key node) d with
  | Some (JObj _) | None => True
  | Some v => truthy v = false
  end.

(** An instance for a device that the data server of the examples does not
    know. *)
Definition example_unknown_instance (status_flags : Z)
    (options : result string) : instance (example status_flags options) :=
  {| _serial := "dev9999"; _device_type := "MFLI";
     _session := tt : Session (example status_flags options);
     _options := "";
     _streaming_nodes := None;
     _root := tt : NodeTree (example status_flags options);
     device_options_value := None |}.




(** A data server whose device reports that the factory preset could not be
    loaded, and whose node tree has an entry without properties after the
    first one. *)
Definition broken_tree : list (string * json) :=
  [("/dev1234/demods/0/sample",
    JObj [("Properties", JStr "Read, Stream")]);
   ("/dev1234/stats/cmdstream/bandwidth", JObj [("Node", JStr "")]);
   ("/dev1234/demods/1/sample",
    JObj [("Properties", JStr "Read, Stream")])].

Definition faulty_server : Externals :=
  let E := example 0 (Ok ""%string) in
  {| World := World E; Session := Session E; NodeTree := NodeTree E;
     Node := Node E; ContextManager := ContextManager E;
     json_loads := json_loads E;
     read_text := read_text E;
     getString := λ _ _ w, (Raise (TypeError "path must be str"), w);
     listNodes := listNodes E;
     fullversion := fullversion E;
     version := version E;
     revision := revision E;
     new_NodeTree := new_NodeTree E;
     update_nodes := update_nodes E;
     node_set := node_set E;
     node_get := λ _ _ w, (Raise (RuntimeError "ZIAPINotFoundException"), w);
     node_get_deep := λ _ _ w, (Ok (JInt 0, JInt 1), w);
     wait_for_state_change := wait_for_state_change E;
     iter_nodes := λ _ w, (Ok broken_tree, w);
     iter_yielded := iter_yielded E;
     root_set_transaction := root_set_transaction E |}.

Definition faulty_instance : instance faulty_server :=
  {| _serial := "dev1234"; _device_type := "MFLI";
     _session := tt : Session faulty_server;
     _options := "";
     _streaming_nodes := None;
     _root := tt : NodeTree faulty_server;
     device_options_value := None |}.

Definition faulty_start : system faulty_server :=
  {| world := tt : World faulty_server;
     calls := []; logged := []; warned := [] |}.

(** A data server that is lost while the node tree is iterated over: the
    iteration raises after the first pair of the tree. *)
Definition disconnected_tree_server : Externals :=
  let E := example 0 (Ok ""%string) in
  {| World := World E; Session := Session E; NodeTree := NodeTree E;
     Node := Node E; ContextManager := ContextManager E;
     json_loads := json_loads E;
     read_text := read_text E;
     getString := getString E;
     listNodes := listNodes E;
     fullversion := fullversion E;
     version := version E;
     revision := revision E;
     new_NodeTree := new_NodeTree E;
     update_nodes := update_nodes E;
     node_set := node_set E;
     node_get := node_get E;
     node_get_deep := node_get_deep E;
     wait_for_state_change := wait_for_state_change E;
     iter_nodes := λ _ w, (Raise (RuntimeError "connection lost"), w);
     iter_yielded := λ _ _, take 1 example_tree;
     root_set_transaction := root_set_transaction E |}.

Definition disconnected_tree_instance : instance disconnected_tree_server :=
  {| _serial := "dev1234"; _device_type := "MFLI";
     _session := tt : Session disconnected_tree_server;
     _options := "";
     _streaming_nodes := None;
     _root := tt : NodeTree disconnected_tree_server;
     device_options_value := None |}.

Definition disconnected_tree_start : system disconnected_tree_server :=
  {| world := tt : World disconnected_tree_server;
     calls := []; logged := []; warned := [] |}.

(** ** Paths of named and indexed segments *)

(** A path as the data server lists it, [/name] or [/name/index] segment by
    segment: [/dev1234/demods/3/rate] is [dev1234], [demods] with index [3],
    [rate]. *)
Definition segment : Type := string * option string.

Definition no_slash (c : ascii) : bool := negb (Ascii.eqb c "/").

(** A name starts with a character that is no digit, and has no slash. *)
Definition is_name (name : string) : bool :=
  match name with
  | String c r => is_name_start c && string_forallb no_slash r
  | EmptyString => false
  end.

(** An index is written in ASCII digits; it may have none. *)
Definition is_index (idx : string) : bool := string_forallb is_ascii_digit idx.

Definition well_formed (path : list segment) : bool :=
  forallb (λ seg : segment, is_name seg.1 && from_option is_index true seg.2)
          path.

(** The text of a path. *)
Fixpoint render (path : list segment) : string :=
  match path with
  | [] => ""
  | (name, idx) :: rest =>
      "/" +:+ name
      +:+ match idx with Some i => "/" +:+ i | None => "" end
      +:+ render rest
  end.

(** The text of a path after the first substitution: the index of the last
    segment is [n], unless the name of that segment ends in [values]. *)
Fixpoint trailing_index_replaced (path : list segment) : string :=
  match path with
  | [] => ""
  | (name, idx) :: rest =>
      "/" +:+ name
      +:+ match idx with
          | Some i =>
              "/" +:+ match rest with
                      | [] => if endswith name "values" then i else "n"
                      | _ :: _ => i
                      end
          | None => ""
          end
      +:+ trailing_index_replaced rest
  end.

(** The key of a path: every index is [n], but for the index of a last
    segment whose name ends in [values]. *)
Fixpoint path_key (path : list segment) : string :=
  match path with
  | [] => ""
  | (name, idx) :: rest =>
      "/" +:+ name
      +:+ match idx with
          | Some i =>
              match rest with
              | [] => if endswith name "values" then "/" +:+ i else "/n"
              | _ :: _ => "/n"
              end
          | None => ""
          end
      +:+ path_key rest
  end.

(** [E] with another [json.loads]. *)
Definition with_json_loads (E : Externals) (loads : string → result json)
    : Externals :=
  {| World := World E; Session := Session E; NodeTree := NodeTree E;
     Node := Node E; ContextManager := ContextManager E;
     json_loads := loads;
     read_text := read_text E;
     getString := getString E;
     listNodes := listNodes E;
     fullversion := fullversion E;
     version := version E;
     revision := revision E;
     new_NodeTree := new_NodeTree E;
     update_nodes := update_nodes E;
     node_set := node_set E;
     node_get := node_get E;
     node_get_deep := node_get_deep E;
     wait_for_state_change := wait_for_state_change E;
     iter_nodes := iter_nodes E;
     iter_yielded := iter_yielded E;
     root_set_transaction := root_set_transaction E |}.

(** A static document with a text where the entry of a node should be. *)
Definition malformed_document : list (string * json) :=
  [("/dev1234/demods/n/rate"%string, JStr "Read, Write, Setting")].

Definition malformed_document_server : Externals :=
  with_json_loads (example 0 (Ok ""%string))
                  (λ _, Ok (JObj malformed_document)).

Definition malformed_document_start : system malformed_document_server :=
  {| world := tt : World malformed_document_server;
     calls := []; logged := []; warned := [] |}.

(** A resource file that is no JSON text. *)
Definition unparsable_document_server : Externals :=
  with_json_loads (example 0 (Ok ""%string))
                  (λ _, Raise (ValueError "Expecting value")).

Definition unparsable_document_start : system unparsable_document_server :=
  {| world := tt : World unparsable_document_server;
     calls := []; logged := []; warned := [] |}.

(** A data server that lists the nodes of [dev1234] in one order and
    spelling before a reconnection and in another after it; the world tells
    which. *)
Definition relisting_server : Externals := {|
  World := bool;
  Session := unit;
  NodeTree := unit;
  Node := string;
  ContextManager := unit;
  json_loads := example_loads 0;
  read_text := λ file _,
    if String.eqb file nodedoc_hf2 then Some "/devxxxx/demods/n/rate"%string
    else None;
  getString := λ _ path w, (example_getString (Ok ""%string) path, w);
  listNodes := λ _ _ w,
    (Ok (if w then example_nodes
         else ["/zi/about/version"; "/DEV1234/UNKNOWN/0/X";
               "/DEV1234/DEMODS/3/RATE"; "/dev1234/demods/3/rate"]%string),
     w);
  fullversion := λ _ w, (Ok "24.10.0.64896"%string, w);
  version := λ _ w, (Ok "24.10"%string, w);
  revision := λ _ w, (Ok 241064896, w);
  new_NodeTree := λ _ _ _ _ w, (Ok tt, w);
  update_nodes := λ _ _ w, (Ok tt, w);
  node_set := λ _ _ _ _ w, (Ok tt, w);
  node_get := λ _ _ w, (Ok (JStr "MF"), w);
  node_get_deep := λ _ _ w, (Ok (JInt 0, JInt 0), w);
  wait_for_state_change := λ _ _ _ _ w, (Ok tt, w);
  iter_nodes := λ _ w, (Ok example_tree, w);
  iter_yielded := λ _ _, [];
  root_set_transaction := λ _ w, (Ok tt, w)
|}.

Definition relisting_start (connected : bool) : system relisting_server :=
  {| world := connected : World relisting_server;
     calls := []; logged := []; warned := [] |}.

(** * Properties *)

(** ** Strings and version strings *)


Lemma string_forallb_split p sep s :
  string_forallb p s = true →
  Forall (λ part, string_forallb p part = true) (str_split sep s).
Proof.
  induction s as [|c s IH]; simpl; intros H.
  - by constructor.
  - apply andb_true_iff in H as [Hc Hs]. specialize (IH Hs).
    destruct (Ascii.eqb c sep).
    + by constructor.
    + destruct (str_split sep s) as [|part parts].
      { constructor; [simpl; by rewrite Hc | constructor]. }
      inversion IH; subst. constructor; [|done].
      simpl. by rewrite Hc.
Qed.

Lemma ascii_digit_char c :
  (code c <? 128)%N = true → char_isdigit c = is_ascii_digit c.
Proof.
  unfold char_isdigit, is_superscript_digit. intros H%N.ltb_lt.
  replace ((code c =? 178)%N) with false by (symmetry; apply N.eqb_neq; lia).
  replace ((code c =? 179)%N) with false by (symmetry; apply N.eqb_neq; lia).
  replace ((code c =? 185)%N) with false by (symmetry; apply N.eqb_neq; lia).
  by rewrite !orb_false_r.
Qed.

Lemma ascii_forallb_digit p :
  is_ascii_string p = true →
  string_forallb char_isdigit p = string_forallb is_ascii_digit p.
Proof.
  unfold is_ascii_string. induction p as [|c p IH]; simpl; [done|].
  intros [Hc Hp]%andb_true_iff. by rewrite ascii_digit_char, IH.
Qed.

(** On an ASCII part, the guarded conversion of the code gives the
    component. *)
Lemma convert_ascii_part p :
  is_ascii_string p = true →
  (if isdigit p then int p else Ok 0) = Ok (component p).
Proof.
  intros Hp. unfold int, component, is_numeral.
  destruct p as [|c p]; [done|].
  unfold isdigit. rewrite (ascii_forallb_digit _ Hp).
  change (negb (String.eqb (String c p) "")) with true.
  cbn [string_forallb andb].
  destruct (is_ascii_digit c && string_forallb is_ascii_digit p); done.
Qed.

Lemma convert_ascii_parts parts :
  Forall (λ p, is_ascii_string p = true) parts →
  map_result (λ v, if isdigit v then int v else Ok 0) parts
  = Ok (map component parts).
Proof.
  induction 1 as [|p parts Hp _ IH]; simpl; [done|].
  by rewrite (convert_ascii_part _ Hp), IH.
Qed.

Lemma version_string_to_tuple_ascii_parts version :
  is_ascii_string version = true →
  _version_string_to_tuple version
  = Ok (map component
          (take 4 (if (length (str_split "." version) =? 3)%nat
                   then list_insert_at 2 "0"%string (str_split "." version)
                   else str_split "." version))).
Proof.
  intros H. unfold _version_string_to_tuple.
  apply convert_ascii_parts.
  pose proof (string_forallb_split _ "."%char _ H) as Hparts.
  fold is_ascii_string in Hparts.
  apply Forall_take.
  destruct (length (str_split "." version) =? 3)%nat; [|done].
  unfold list_insert_at. apply Forall_app. split.
  - by apply Forall_take.
  - constructor; [done|]. by apply Forall_drop.
Qed.

(** C3: [_version_string_to_tuple("24.10.64896")] is [(24, 10, 0, 64896)],
    the patch component 0 being inserted for the three-part string, and
    [_version_string_to_tuple("25.04.1.17")] is [(25, 4, 1, 17)]. *)
Theorem version_string_to_tuple_examples :
  _version_string_to_tuple "24.10.64896" = Ok [24; 10; 0; 64896] ∧
  _version_string_to_tuple "25.04.1.17" = Ok [25; 4; 1; 17].
Proof. split; reflexivity. Qed.

(** C10: [_version_string_to_tuple] does not return a tuple for every string
    of three parts.  The third part of ["1.2.²"] is a character that
    [isdigit] accepts and [int] rejects: the guard lets it through and the
    call raises [ValueError]. *)
Lemma version_string_to_tuple_superscript_raises :
  length (str_split "." superscript_version) = 3%nat ∧
  (∃ msg, _version_string_to_tuple superscript_version
          = Raise (ValueError msg)) ∧
  ¬ (∃ t, _version_string_to_tuple superscript_version = Ok t).
Proof.
  split; [reflexivity|]. split.
  - eexists. reflexivity.
  - intros [t Ht]. vm_compute in Ht. discriminate Ht.
Qed.

(** On the version strings of ASCII characters whose parts have no more
    characters than the limit that CPython sets on the conversion of a
    numeral, the conversion returns: a string of exactly three parts gives
    the four components of its parts with 0 in the third place, a string of
    four or more parts gives the components of its first four parts, a part
    that is no decimal numeral stands as 0 (so ["25.04.dev1.17"] gives
    [(25, 4, 0, 17)]), and a string of fewer than three parts gives fewer
    than four components.  (A part that is a numeral of more digits than
    the limit makes [int] raise [ValueError].) *)
Theorem version_string_to_tuple_ascii (version : string) :
  is_ascii_string version = true →
  Forall (λ p, (String.length p ≤ int_max_str_digits)%nat)
         (str_split "." version) →
  (∀ p0 p1 p2, str_split "." version = [p0; p1; p2] →
     _version_string_to_tuple version
     = Ok [component p0; component p1; 0; component p2]) ∧
  (∀ p0 p1 p2 p3 rest, str_split "." version = p0 :: p1 :: p2 :: p3 :: rest →
     _version_string_to_tuple version
     = Ok [component p0; component p1; component p2; component p3]) ∧
  ((length (str_split "." version) < 3)%nat →
     ∃ t, _version_string_to_tuple version = Ok t ∧ (length t < 4)%nat) ∧
  (∀ p, is_numeral p = false → component p = 0) ∧
  _version_string_to_tuple "25.04.dev1.17" = Ok [25; 4; 0; 17].
Proof.
  (* [int] of the model has no limit: the bound on the parts keeps the
     statement to the strings that CPython converts. *)
  intros H _. pose proof (version_string_to_tuple_ascii_parts _ H) as Heq.
  repeat split.
  - intros p0 p1 p2 Hs. rewrite Heq, Hs. reflexivity.
  - intros p0 p1 p2 p3 rest Hs. rewrite Heq, Hs. reflexivity.
  - intros Hlen. rewrite Heq. eexists. split; [reflexivity|].
    replace (length (str_split "." version) =? 3)%nat with false
      by (symmetry; apply Nat.eqb_neq; lia).
    rewrite length_map, length_take. lia.
  - intros p Hp. unfold component. by rewrite Hp.
Qed.

Lemma version_string_to_tuple_ascii_witness :
  _version_string_to_tuple "24.10.64896" = Ok [24; 10; 0; 64896].
Proof.
  assert (Forall (λ p, (String.length p ≤ int_max_str_digits)%nat)
                 (str_split "." "24.10.64896")) as Hlimit.
  { change (str_split "." "24.10.64896") with ["24"; "10"; "64896"]%string.
    unfold int_max_str_digits.
    repeat (constructor; [cbn [String.length]; lia|]). constructor. }
  destruct (version_string_to_tuple_ascii "24.10.64896" eq_refl Hlimit)
    as (H3 & _).
  exact (H3 "24" "10" "64896" eq_refl)%string.
Defined.

(** ** The order of version tuples *)

Lemma tuple_lt_pair a0 a1 b0 b1 :
  tuple_lt [a0; a1] [b0; b1] = true ↔ major_minor_lt a0 a1 b0 b1.
Proof.
  unfold major_minor_lt. simpl.
  destruct (Z.eqb_spec a0 b0) as [->|Hne0].
  - destruct (Z.eqb_spec a1 b1) as [->|Hne1].
    + split; [done | lia].
    + rewrite Z.ltb_lt. lia.
  - rewrite Z.ltb_lt. lia.
Qed.

Lemma tuple_lt_pair_false a0 a1 b0 b1 :
  tuple_lt [a0; a1] [b0; b1] = false ↔ ¬ major_minor_lt a0 a1 b0 b1.
Proof. rewrite <- tuple_lt_pair. by destruct (tuple_lt _ _). Qed.

(** Against a tuple of three or more components, a pair with the same major
    and minor is the smaller one: it is a proper prefix. *)
Lemma tuple_lt_pair_longer a0 a1 b0 b1 b2 rest :
  tuple_lt [a0; a1] (b0 :: b1 :: b2 :: rest) = true
  ↔ major_minor_lt a0 a1 b0 b1 ∨ (a0 = b0 ∧ a1 = b1).
Proof.
  unfold major_minor_lt. simpl.
  destruct (Z.eqb_spec a0 b0) as [->|Hne0].
  - destruct (Z.eqb_spec a1 b1) as [->|Hne1].
    + split; [auto | done].
    + rewrite Z.ltb_lt. lia.
  - rewrite Z.ltb_lt. lia.
Qed.

Lemma major_minor_trichotomy a0 a1 b0 b1 :
  (a0, a1) ≠ (b0, b1) →
  major_minor_lt a0 a1 b0 b1 ∨ major_minor_lt b0 b1 a0 a1.
Proof.
  unfold major_minor_lt. intros Hne.
  destruct (Z.lt_trichotomy a0 b0) as [?|[->|?]]; [lia| |lia].
  destruct (Z.lt_trichotomy a1 b1) as [?|[->|?]]; [lia|done|lia].
Qed.

(** ** [_check_python_versions] *)

(** With both minimum versions written as major.minor, the check compares
    major and minor: it raises below the minimum and returns at or above
    it. *)
Lemma check_python_versions_two_parts
    min_core min_utils c0 c1 u0 u1 z0 z1 zs y0 y1 ys :
  _version_string_to_tuple min_core = Ok [c0; c1] →
  _version_string_to_tuple min_utils = Ok [u0; u1] →
  (major_minor_lt z0 z1 c0 c1 ∨ major_minor_lt y0 y1 u0 u1 →
   ∃ msg, _check_python_versions min_core min_utils
            (z0 :: z1 :: zs) (y0 :: y1 :: ys) = Raise (ToolkitError msg)) ∧
  (¬ major_minor_lt z0 z1 c0 c1 → ¬ major_minor_lt y0 y1 u0 u1 →
   _check_python_versions min_core min_utils
     (z0 :: z1 :: zs) (y0 :: y1 :: ys) = Ok tt).
Proof.
  intros Hc Hu. unfold _check_python_versions. rewrite Hc, Hu. simpl take.
  rewrite !take_0. cbn [bind_result].
  destruct (tuple_lt [z0; z1] [c0; c1]) eqn:Ez.
  - apply tuple_lt_pair in Ez. split; [|done].
    intros _. eexists. reflexivity.
  - apply tuple_lt_pair_false in Ez. cbn [bind_result].
    destruct (tuple_lt [y0; y1] [u0; u1]) eqn:Ey.
    + apply tuple_lt_pair in Ey. split; [|done].
      intros _. eexists. reflexivity.
    + apply tuple_lt_pair_false in Ey. split; [|done].
      intros [?|?]; done.
Qed.

(** With a minimum written in three or four parts, an installed version of
    the same major and minor is refused. *)
Lemma check_python_versions_longer_minimum
    min_core min_utils mc u0 u1 u2 us z ys :
  _version_string_to_tuple min_core = Ok mc →
  _version_string_to_tuple min_utils = Ok (u0 :: u1 :: u2 :: us) →
  tuple_lt (take 2 z) mc = false →
  _check_python_versions min_core min_utils z (u0 :: u1 :: ys)
  = Raise (ToolkitError (utils_too_old_msg min_utils u0 u1)).
Proof.
  intros Hc Hu Hz. unfold _check_python_versions. rewrite Hc, Hu.
  cbn [bind_result]. rewrite Hz. cbn [bind_result].
  simpl take. rewrite take_0.
  replace (tuple_lt [u0; u1] (u0 :: u1 :: u2 :: us)) with true
    by (symmetry; apply tuple_lt_pair_longer; auto).
  reflexivity.
Qed.



(** ** [_check_labone_version] *)

Lemma labone_messages_distinct l0 l1 z0 z1 a b c d :
  labone_older_msg l0 l1 z0 z1 ≠ core_older_msg a b c d.
Proof. unfold labone_older_msg, core_older_msg. cbn [String.append]. discriminate. Qed.

(** C2: for version tuples of four components each, a server whose
    major.minor differs from the local one makes [_check_labone_version]
    raise a [ToolkitError], with one message when the server is the older
    and another when the local package is; with equal major.minor and
    different patch components the call returns, having given exactly one
    [RuntimeWarning]. *)
Theorem check_labone_version_spec (z0 z1 z2 z3 l0 l1 l2 l3 : Z) :
  ((l0, l1) ≠ (z0, z1) →
   ∃ msg, _check_labone_version [z0; z1; z2; z3] [l0; l1; l2; l3]
          = Raise (ToolkitError msg)) ∧
  (major_minor_lt l0 l1 z0 z1 →
   _check_labone_version [z0; z1; z2; z3] [l0; l1; l2; l3]
   = Raise (ToolkitError (labone_older_msg l0 l1 z0 z1))) ∧
  (major_minor_lt z0 z1 l0 l1 →
   _check_labone_version [z0; z1; z2; z3] [l0; l1; l2; l3]
   = Raise (ToolkitError (core_older_msg z0 z1 l0 l1))) ∧
  labone_older_msg l0 l1 z0 z1 ≠ core_older_msg z0 z1 l0 l1 ∧
  ((l0, l1) = (z0, z1) → l2 ≠ z2 →
   _check_labone_version [z0; z1; z2; z3] [l0; l1; l2; l3]
   = Ok [RuntimeWarning (patch_mismatch_msg l2 z2)]).
Proof.
  assert (Holder : major_minor_lt l0 l1 z0 z1 →
    _check_labone_version [z0; z1; z2; z3] [l0; l1; l2; l3]
    = Raise (ToolkitError (labone_older_msg l0 l1 z0 z1))).
  { intros H%tuple_lt_pair. unfold _check_labone_version. simpl take.
    by rewrite H. }
  assert (Hnewer : major_minor_lt z0 z1 l0 l1 →
    _check_labone_version [z0; z1; z2; z3] [l0; l1; l2; l3]
    = Raise (ToolkitError (core_older_msg z0 z1 l0 l1))).
  { intros H. unfold _check_labone_version, tuple_gt. simpl take.
    replace (tuple_lt [l0; l1] [z0; z1]) with false
      by (symmetry; apply tuple_lt_pair_false; unfold major_minor_lt in *; lia).
    apply tuple_lt_pair in H. by rewrite H. }
  split; [|split; [done|split; [done|split]]].
  - intros [H|H]%major_minor_trichotomy; eexists; eauto.
  - apply labone_messages_distinct.
  - intros [= -> ->] Hpatch. unfold _check_labone_version, tuple_gt.
    simpl take.
    replace (tuple_lt [z0; z1] [z0; z1]) with false
      by (symmetry; apply tuple_lt_pair_false; unfold major_minor_lt; lia).
    cbn. by replace (l2 =? z2) with false by (symmetry; by apply Z.eqb_neq).
Qed.

Lemma check_labone_version_spec_witness :
  (∃ msg, _check_labone_version [25; 4; 1; 17] [24; 10; 0; 64896]
          = Raise (ToolkitError msg)) ∧
  _check_labone_version [25; 4; 1; 17] [24; 10; 0; 64896]
  = Raise (ToolkitError (labone_older_msg 24 10 25 4)) ∧
  _check_labone_version [24; 10; 0; 64896] [25; 4; 1; 17]
  = Raise (ToolkitError (core_older_msg 24 10 25 4)) ∧
  _check_labone_version [25; 4; 0; 17] [25; 4; 1; 17]
  = Ok [RuntimeWarning (patch_mismatch_msg 1 0)].
Proof.
  split; [|split; [|split]].
  - apply (check_labone_version_spec 25 4 1 17 24 10 0 64896). done.
  - apply (check_labone_version_spec 25 4 1 17 24 10 0 64896).
    unfold major_minor_lt. lia.
  - apply (check_labone_version_spec 24 10 0 64896 25 4 1 17).
    unfold major_minor_lt. lia.
  - apply (check_labone_version_spec 25 4 0 17 25 4 1 17); done.
Defined.

(** ** Status flags *)

Lemma land_pow2 n k :
  0 ≤ k → Z.land n (2 ^ k) = if Z.testbit n k then 2 ^ k else 0.
Proof.
  intros Hk. apply Z.bits_inj'. intros m Hm. rewrite Z.land_spec.
  destruct (Z.eq_dec m k) as [->|Hne].
  - rewrite Z.pow2_bits_true by done. rewrite andb_true_r.
    destruct (Z.testbit n k) eqn:E.
    + by rewrite Z.pow2_bits_true.
    + by rewrite Z.bits_0.
  - rewrite Z.pow2_bits_false by lia. rewrite andb_false_r.
    destruct (Z.testbit n k).
    + by rewrite Z.pow2_bits_false by lia.
    + by rewrite Z.bits_0.
Qed.

Lemma truthy_flag n k :
  0 ≤ k → truthy_int (Z.land n (Z.shiftl 1 k)) = Z.testbit n k.
Proof.
  intros Hk. rewrite Z.shiftl_1_l, land_pow2 by done. unfold truthy_int.
  destruct (Z.testbit n k); [|done].
  apply negb_true_iff, Z.eqb_neq. pose proof (Z.pow_pos_nonneg 2 k). lia.
Qed.

Lemma check_status_flag_bits n :
  check_status_flag n =
  if Z.testbit n 8 then Raise (ConnectionError updating_msg)
  else if Z.testbit n 4 || Z.testbit n 5 then
    Raise (ToolkitError update_firmware_msg)
  else if Z.testbit n 6 || Z.testbit n 7 then
    Raise (ToolkitError update_labone_msg)
  else Ok tt.
Proof. unfold check_status_flag. by rewrite !truthy_flag by lia. Qed.

(** ** [_check_firmware_update_status] *)

Lemma check_firmware_update_status_run X (i : instance X) (s : system X)
    raw w devices info status_flag :
  getString X (_session i) "/zi/devices" (world s) = (Ok raw, w) →
  json_loads X raw = Ok devices →
  json_getitem devices (upper (serial i)) = Ok info →
  json_getitem info "STATUSFLAGS" = Ok (JInt status_flag) →
  _check_firmware_update_status X (i, s)
  = (check_status_flag status_flag,
     (i, {| world := w; calls := calls s ++ [GetString "/zi/devices"];
            logged := logged s; warned := warned s |})).
Proof.
  intros Hget Hloads Hinfo Hflags.
  unfold _check_firmware_update_status, bind, self, on_system, ext,
    lift_result.
  cbn [fst snd]. rewrite Hget. cbn [fst snd]. by rewrite Hloads, Hinfo, Hflags.
Qed.

(** C6: when the data server reports the status flags of the device, an
    update in progress (bit 8) makes [_check_firmware_update_status] raise
    [ConnectionError] with the "currently updating" message whatever the
    other bits are, and the mismatch bits 4 to 7 lead to a [ToolkitError]
    exactly when bit 8 is clear. *)
Theorem firmware_update_takes_precedence X (i : instance X) (s : system X)
    raw w devices info status_flag :
  getString X (_session i) "/zi/devices" (world s) = (Ok raw, w) →
  json_loads X raw = Ok devices →
  json_getitem devices (upper (serial i)) = Ok info →
  json_getitem info "STATUSFLAGS" = Ok (JInt status_flag) →
  (Z.testbit status_flag 8 = true →
   (_check_firmware_update_status X (i, s)).1
   = Raise (ConnectionError updating_msg)) ∧
  str_contains "currently updating" updating_msg = true ∧
  (∀ msg, (_check_firmware_update_status X (i, s)).1
          = Raise (ToolkitError msg) →
     Z.testbit status_flag 8 = false ∧
     Z.testbit status_flag 4 || Z.testbit status_flag 5
     || Z.testbit status_flag 6 || Z.testbit status_flag 7 = true) ∧
  (Z.testbit status_flag 8 = false →
   Z.testbit status_flag 4 || Z.testbit status_flag 5
   || Z.testbit status_flag 6 || Z.testbit status_flag 7 = true →
   ∃ msg, (_check_firmware_update_status X (i, s)).1
          = Raise (ToolkitError msg)).
Proof.
  intros Hget Hloads Hinfo Hflags.
  rewrite (check_firmware_update_status_run X i s _ _ _ _ _
             Hget Hloads Hinfo Hflags).
  cbn [fst]. rewrite check_status_flag_bits.
  split; [|split; [reflexivity|split]].
  - by intros ->.
  - intros msg.
    destruct (Z.testbit status_flag 8); [done|].
    destruct (Z.testbit status_flag 4), (Z.testbit status_flag 5),
      (Z.testbit status_flag 6), (Z.testbit status_flag 7); done.
  - intros -> Hbits.
    destruct (Z.testbit status_flag 4), (Z.testbit status_flag 5),
      (Z.testbit status_flag 6), (Z.testbit status_flag 7);
      try done; eexists; reflexivity.
Qed.

Lemma firmware_update_takes_precedence_witness :
  (_check_firmware_update_status (example 272 (Ok ""%string))
     (example_instance 272 (Ok ""%string),
      example_start 272 (Ok ""%string))).1
  = Raise (ConnectionError updating_msg) ∧
  ∃ msg, (_check_firmware_update_status (example 16 (Ok ""%string))
            (example_instance 16 (Ok ""%string),
             example_start 16 (Ok ""%string))).1
         = Raise (ToolkitError msg).
Proof.
  split.
  - apply (firmware_update_takes_precedence (example 272 (Ok ""%string))
             (example_instance 272 (Ok ""%string))
             (example_start 272 (Ok ""%string))
             "devices" tt
             (JObj [("DEV1234"%string, JObj [("STATUSFLAGS"%string, JInt 272)])])
             (JObj [("STATUSFLAGS"%string, JInt 272)]) 272);
      reflexivity.
  - apply (firmware_update_takes_precedence (example 16 (Ok ""%string))
             (example_instance 16 (Ok ""%string))
             (example_start 16 (Ok ""%string))
             "devices" tt
             (JObj [("DEV1234"%string, JObj [("STATUSFLAGS"%string, JInt 16)])])
             (JObj [("STATUSFLAGS"%string, JInt 16)]) 16);
      reflexivity.
Defined.

(** ** What a method leaves of the instance *)

Section Preserves.

Context {X : Externals} (P : relation (instance X)) `{!PreOrder P}.

Lemma preserves_ret {A} (a : A) : preserves P (ret a).
Proof. intros st. reflexivity. Qed.

Lemma preserves_raise {A} e : preserves P (raise (A:=A) e).
Proof. intros st. reflexivity. Qed.

Lemma preserves_lift_result {A} (r : result A) : preserves P (lift_result r).
Proof. intros st. reflexivity. Qed.

Lemma preserves_self : preserves P (self X).
Proof. intros st. reflexivity. Qed.

Lemma preserves_on_system {A} (m : M (system X) A) :
  preserves P (on_system X m).
Proof.
  intros [i s]. unfold on_system. cbn [fst snd].
  destruct (m s). reflexivity.
Qed.

Lemma preserves_bind {A B} (m : method X A) (k : A → method X B) :
  preserves P m → (∀ a, preserves P (k a)) → preserves P (bind m k).
Proof.
  intros Hm Hk st. unfold bind. specialize (Hm st).
  destruct (m st) as [[a|e] st'] eqn:E; cbn [fst snd] in *; [|done].
  etrans; [exact Hm|]. apply Hk.
Qed.

End Preserves.

#[local] Instance extends_preorder {X} : PreOrder (@extends X).
Proof.
  split.
  - intros i. unfold extends. naive_solver.
  - intros i j k (?&?&?&?&?&?&?) (?&?&?&?&?&?&?). unfold extends.
    repeat split; try congruence; auto.
Qed.

#[local] Instance same_but_streaming_nodes_preorder {X} :
  PreOrder (@same_but_streaming_nodes X).
Proof.
  split.
  - intros i. unfold same_but_streaming_nodes. naive_solver.
  - intros i j k (?&?&?&?&?&?) (?&?&?&?&?&?).
    unfold same_but_streaming_nodes. repeat split; congruence.
Qed.

Lemma preserves_set_self_bind {X A} (P : relation (instance X))
    `{!PreOrder P} (i j : instance X) (s : system X)
    (k : unit → method X A) :
  P i j → preserves P (k tt) → P i (bind (set_self X j) k (i, s)).2.1.
Proof.
  intros Hij Hk. unfold bind, set_self. cbn [fst snd].
  etrans; [exact Hij|]. apply (Hk (j, s)).
Qed.

Create HintDb frame.

Ltac frame :=
  repeat first
    [ match goal with |- PreOrder _ => apply _ end
    | solve [auto with frame nocore]
    | apply preserves_ret
    | apply preserves_raise
    | apply preserves_lift_result
    | apply preserves_self
    | apply preserves_on_system
    | apply preserves_bind; [apply _ | | intros ?]
    | match goal with
      | |- preserves _ (if ?b then _ else _) => destruct b
      | |- preserves _ (match ?o with Some _ => _ | None => _ end) =>
          destruct o
      end ].

Section Frames.

Variable X : Externals.
Variable _MIN_LABONE_VERSION : string.
Variable _MIN_DEVICE_UTILS_VERSION : string.
Variable zhinst_version_str : string.
Variable utils_version_str : string.

Lemma check_firmware_update_status_frame :
  preserves eq (_check_firmware_update_status X).
Proof. unfold _check_firmware_update_status. frame. Qed.

Lemma check_compatibility_frame :
  preserves eq (check_compatibility X _MIN_LABONE_VERSION
                  _MIN_DEVICE_UTILS_VERSION zhinst_version_str
                  utils_version_str).
Proof.
  unfold check_compatibility. frame.
Qed.

Lemma factory_reset_frame deep timeout :
  preserves eq (factory_reset X deep timeout).
Proof. unfold factory_reset. frame. Qed.

Lemma set_transaction_frame : preserves eq (set_transaction X).
Proof. unfold set_transaction. frame. Qed.

Lemma device_options_frame : preserves extends (device_options X).
Proof.
  intros [i s]. unfold device_options, bind, self. cbn [fst snd].
  destruct (device_options_value i) eqn:E; [reflexivity|].
  unfold on_system, ext. cbn [fst snd].
  destruct (node_get X (_root i) "features/options" (world s))
    as [[value|e] w]; cbn [fst snd]; [|reflexivity].
  unfold extends. cbn. rewrite E. naive_solver.
Qed.

Lemma append_streaming_node_frame node :
  preserves same_but_streaming_nodes (append_streaming_node X node).
Proof. intros [i s]. cbn. unfold same_but_streaming_nodes. naive_solver. Qed.

#[local] Hint Resolve append_streaming_node_frame : frame.

Lemma scan_nodes_frame items :
  preserves same_but_streaming_nodes (scan_nodes X items).
Proof.
  induction items as [|[node info] rest IH]; cbn [scan_nodes]; frame.
Qed.

#[local] Hint Resolve scan_nodes_frame : frame.

Lemma get_streamingnodes_frame : preserves extends (get_streamingnodes X).
Proof.
  intros [i s]. unfold get_streamingnodes. unfold bind at 1, self.
  cbn [fst snd].
  destruct (_streaming_nodes i) eqn:E; [reflexivity|].
  assert (same_but_streaming_nodes i
    (bind (set_self X (with_streaming_nodes i (Some [])))
       (λ _, iteration ←! on_system X (iterate X (_root i));
             scan_nodes X iteration.1 >>!
             match iteration.2 with
             | Some e => raise e
             | None => i0 ←! self X; ret (default [] (_streaming_nodes i0))
             end)
       (i, s)).2.1) as H.
  { apply (preserves_set_self_bind _).
    - unfold same_but_streaming_nodes. naive_solver.
    - frame. }
  destruct H as (?&?&?&?&?&H4). unfold extends.
  rewrite E. repeat split; try done.
  intros value Hvalue. etrans; [exact H4 | exact Hvalue].
Qed.

Lemma run_operation_extends op (st : instance X * system X) :
  extends st.1 (run_operation X _MIN_LABONE_VERSION
                  _MIN_DEVICE_UTILS_VERSION zhinst_version_str
                  utils_version_str op st).1.
Proof.
  destruct op; cbn [run_operation].
  - rewrite <- (check_compatibility_frame st). reflexivity.
  - rewrite <- (factory_reset_frame deep timeout st). reflexivity.
  - apply get_streamingnodes_frame.
  - rewrite <- (set_transaction_frame st). reflexivity.
  - apply device_options_frame.
Qed.

Lemma run_operations_extends ops : ∀ (st : instance X * system X),
  extends st.1 (run_operations X _MIN_LABONE_VERSION
                  _MIN_DEVICE_UTILS_VERSION zhinst_version_str
                  utils_version_str ops st).1.
Proof.
  induction ops as [|op ops IH]; intros st; cbn.
  - reflexivity.
  - etrans; [apply (run_operation_extends op)|]. apply IH.
Qed.

End Frames.

Section Facade.

Variable X : Externals.
Variable _MIN_LABONE_VERSION : string.
Variable _MIN_DEVICE_UTILS_VERSION : string.
Variable zhinst_version_str : string.
Variable utils_version_str : string.

Local Abbreviation run_ops :=
  (run_operations X _MIN_LABONE_VERSION _MIN_DEVICE_UTILS_VERSION
     zhinst_version_str utils_version_str).

(** ** [get_streamingnodes] *)

Lemma with_streaming_nodes_id (i : instance X) nodes :
  _streaming_nodes i = nodes → with_streaming_nodes i nodes = i.
Proof. destruct i. cbn. by intros ->. Qed.

Lemma scan_nodes_run items : ∀ (i : instance X) (s : system X) acc,
  _streaming_nodes i = Some acc →
  Forall (λ it, is_Ok (stream_test it.2) = true) items →
  scan_nodes X items (i, s)
  = (Ok tt,
     (with_streaming_nodes i
        (Some (acc ++ (List.filter (λ it, has_stream it.2) items).*1)), s)).
Proof.
  induction items as [|[node info] rest IH]; intros i s acc Hacc Hitems.
  - cbn. by rewrite app_nil_r, with_streaming_nodes_id.
  - inversion Hitems as [|? ? Hinfo Hrest]; subst. cbn [snd] in Hinfo.
    cbn [scan_nodes List.filter]. unfold has_stream at 1. cbn [snd].
    unfold stream_test in Hinfo |- *. unfold bind at 1, lift_result at 1.
    destruct (json_get info "Properties") as [properties|e];
      cbn [bind_result] in Hinfo |- *; [|done].
    unfold bind at 1, lift_result at 1.
    destruct (json_contains "Stream" properties) as [[|]|e];
      cbn [is_Ok] in Hinfo; [| |done].
    + unfold bind at 1. unfold append_streaming_node at 1.
      unfold bind at 1, self, set_self. cbn [fst snd]. rewrite Hacc.
      cbn [default].
      rewrite (IH _ s (acc ++ [node])); [|done|done].
      cbn [fmap list_fmap fst]. unfold with_streaming_nodes. cbn.
      by rewrite <- app_assoc.
    + unfold bind at 1, ret at 1. by apply IH.
Qed.

Lemma get_streamingnodes_cached_run (i : instance X) (s : system X) nodes :
  _streaming_nodes i = Some nodes →
  get_streamingnodes X (i, s) = (Ok nodes, (i, s)).
Proof.
  intros H. unfold get_streamingnodes, bind, self. cbn [fst snd].
  by rewrite H.
Qed.

Lemma get_streamingnodes_first_run (i : instance X) (s : system X) items w :
  _streaming_nodes i = None →
  iter_nodes X (_root i) (world s) = (Ok items, w) →
  Forall (λ it, is_Ok (stream_test it.2) = true) items →
  get_streamingnodes X (i, s)
  = (Ok (List.filter (λ it, has_stream it.2) items).*1,
     (with_streaming_nodes i
        (Some (List.filter (λ it, has_stream it.2) items).*1),
      {| world := w; calls := calls s ++ [IterNodes];
         logged := logged s; warned := warned s |})).
Proof.
  intros Hnone Hiter Hitems.
  unfold get_streamingnodes. unfold bind at 1, self at 1. cbn [fst snd].
  rewrite Hnone. unfold bind at 1, set_self at 1. cbn [fst snd].
  unfold bind at 1, on_system, iterate. cbn [fst snd]. rewrite Hiter.
  cbn [fst snd]. unfold bind at 1.
  rewrite (scan_nodes_run items _ _ []); [|done|done].
  unfold bind, self, ret. cbn. reflexivity.
Qed.

(** C7: on an instance that has not scanned yet, and over a tree every
    entry of which has properties that can be searched, the first call of
    [get_streamingnodes] iterates over the tree once and returns exactly the
    nodes whose entry has ["Stream"] in its properties; after that, whatever
    operations of the facade have run in between and whatever the tree has
    become, a call returns the same list and leaves everything as it is: no
    call on the tree is made. *)
Theorem get_streamingnodes_scans_once (i : instance X) (s : system X)
    items w :
  _streaming_nodes i = None →
  iter_nodes X (_root i) (world s) = (Ok items, w) →
  Forall (λ it, is_Ok (stream_test it.2) = true) items →
  ∃ i' s',
    get_streamingnodes X (i, s)
    = (Ok (List.filter (λ it, has_stream it.2) items).*1, (i', s')) ∧
    calls s' = calls s ++ [IterNodes] ∧
    ∀ ops s'',
      get_streamingnodes X (run_ops ops (i', s''))
      = (Ok (List.filter (λ it, has_stream it.2) items).*1,
         run_ops ops (i', s'')).
Proof.
  intros Hnone Hiter Hitems.
  rewrite (get_streamingnodes_first_run _ _ _ _ Hnone Hiter Hitems).
  eexists _, _. split; [reflexivity|]. split; [reflexivity|].
  intros ops s''.
  match goal with
  | |- context [run_ops ops ?st] =>
      pose proof (run_operations_extends X _MIN_LABONE_VERSION
                    _MIN_DEVICE_UTILS_VERSION zhinst_version_str
                    utils_version_str ops st) as Hext;
      destruct (run_ops ops st) as [i2 s2]
  end.
  cbn [fst] in Hext. apply get_streamingnodes_cached_run.
  destruct Hext as (_&_&_&_&_&Hnodes&_). by apply Hnodes.
Qed.

(** ** [__init__] and [device_options] *)

Lemma bind_Ok_inv {S A B} (m : M S A) (k : A → M S B) s b s' :
  bind m k s = (Ok b, s') → ∃ a s1, m s = (Ok a, s1) ∧ k a s1 = (Ok b, s').
Proof.
  unfold bind. destruct (m s) as [[a|e] s1]; [|done]. intros H. by exists a, s1.
Qed.

Lemma init_attributes cls ser dt sess (s s' : system X) i :
  __init__ X cls ser dt sess s = (Ok i, s') →
  _serial i = ser ∧ _device_type i = dt ∧ _session i = sess ∧
  _streaming_nodes i = None ∧ device_options_value i = None.
Proof.
  unfold __init__.
  intros (options & s1 & _ & H)%bind_Ok_inv.
  apply bind_Ok_inv in H as (preloaded_json & s2 & _ & H).
  apply bind_Ok_inv in H as (nodetree & s3 & _ & H).
  apply bind_Ok_inv in H as (_ & s4 & _ & H).
  unfold ret in H. by injection H as <- <-.
Qed.


(** A failure of the fetch that [device_options] makes is raised to the
    caller, and nothing is kept: the next access fetches again. *)
Lemma device_options_failure_run (i : instance X) (s : system X) e w :
  device_options_value i = None →
  node_get X (_root i) "features/options" (world s) = (Raise e, w) →
  device_options X (i, s)
  = (Raise e,
     (i, {| world := w;
            calls := calls s ++ [NodeGet "features/options" false];
            logged := logged s; warned := warned s |})).
Proof.
  intros Hnone Hget. unfold device_options, bind, self, on_system, ext.
  cbn [fst snd]. rewrite Hnone. cbn [fst snd]. rewrite Hget. reflexivity.
Qed.


(** C9: [serial], [device_type] and [session] return the arguments the
    instance was constructed with, and they still do after any operations of
    the facade, [check_compatibility], [factory_reset],
    [get_streamingnodes], [set_transaction] and accesses of
    [device_options], whether these return or raise and whatever the data
    server does. *)
Theorem identity_is_immutable cls ser dt sess (s s' : system X) i :
  __init__ X cls ser dt sess s = (Ok i, s') →
  (serial i = ser ∧ device_type i = dt ∧ session i = sess) ∧
  ∀ ops s'',
    serial (run_ops ops (i, s'')).1 = ser ∧
    device_type (run_ops ops (i, s'')).1 = dt ∧
    session (run_ops ops (i, s'')).1 = sess.
Proof.
  intros (Hser & Hdt & Hsess & _)%init_attributes.
  split; [done|]. intros ops s''.
  pose proof (run_operations_extends X _MIN_LABONE_VERSION
                _MIN_DEVICE_UTILS_VERSION zhinst_version_str
                utils_version_str ops (i, s'')) as (H1 & H2 & H3 & _).
  cbn [fst] in H1, H2, H3. unfold serial, device_type, session.
  by rewrite H1, H2, H3.
Qed.

End Facade.

(** ** [_load_preloaded_json] *)

Lemma upper_lower_char c : upper_char (lower_char c) = upper_char c.
Proof. destruct c as [[] [] [] [] [] [] [] []]; reflexivity. Qed.

Lemma upper_lower s : upper (lower s) = upper s.
Proof.
  induction s as [|c s IH]; cbn [lower upper]; [done|].
  by rewrite upper_lower_char, IH.
Qed.

Lemma entry_for_lower d node node' :
  lower node = lower node' → entry_for d node = entry_for d node'.
Proof.
  intros H. unfold entry_for, node_key. rewrite H.
  by rewrite <- (upper_lower node), <- (upper_lower node'), H.
Qed.

Lemma dict_get_objects d k v :
  objects_only d → dict_get k d = Some v → ∃ fields, v = JObj fields.
Proof.
  induction 1 as [|[k' v'] d [fields Hv] _ IH]; cbn [dict_get]; [done|].
  destruct (String.eqb k' k); [|done]. intros [= <-]. by exists fields.
Qed.

Lemma dict_get_set {V} k (v : V) d : dict_get k (dict_set k v d) = Some v.
Proof.
  induction d as [|[k' v'] d IH]; cbn [dict_set dict_get].
  - by rewrite String.eqb_refl.
  - destruct (String.eqb k' k) eqn:E; cbn [dict_get].
    + by rewrite String.eqb_refl.
    + by rewrite E.
Qed.

Lemma unknown_node_msg_inj node node' :
  unknown_node_msg node = unknown_node_msg node' → node = node'.
Proof. unfold unknown_node_msg. cbn [String.append]. by intros [=]. Qed.

Section Reconcile.

Variable X : Externals.
Variable d : list (string * json).
Hypothesis d_objects : objects_only d.

(** The loop registers the nodes that have an entry, and logs those that
    have none and do not start with [/zi/]. *)
Lemma match_nodes_run nodes : ∀ acc (s : system X),
  match_nodes X (JObj d) nodes acc s
  = (Ok (foldl (register_node d) acc nodes),
     {| world := world s; calls := calls s;
        logged := logged s
                  ++ (unknown_node_record
                      <$> List.filter (skipped d) nodes);
        warned := warned s |}).
Proof.
  induction nodes as [|node nodes IH]; intros acc s.
  - cbn. rewrite app_nil_r. by destruct s.
  - cbn [match_nodes foldl List.filter].
    unfold bind at 1, lift_result at 1, json_get.
    unfold register_node at 2, skipped at 1, entry_for.
    destruct (dict_get (node_key node) d) as [v|] eqn:Hget.
    + destruct (dict_get_objects _ _ _ d_objects Hget) as [fields ->].
      destruct fields as [|f fs]; cbn [default from_option id truthy].
      * destruct (startswith node "/zi/"); cbn [negb].
        -- apply IH.
        -- unfold bind at 1, log at 1. cbv beta iota. rewrite IH. cbn.
           by rewrite <- app_assoc.
      * unfold bind at 1, lift_result at 1. cbn [json_setitem].
        cbv beta iota. apply IH.
    + cbn [default from_option id truthy].
      destruct (startswith node "/zi/"); cbn [negb].
      * apply IH.
      * unfold bind at 1, log at 1. cbv beta iota. rewrite IH. cbn.
        by rewrite <- app_assoc.
Qed.

Lemma register_nodes_entry nodes : ∀ acc node e,
  entry_for d node = Some e →
  acc !! lower node = Some e ∨ node ∈ nodes →
  foldl (register_node d) acc nodes !! lower node = Some e.
Proof.
  induction nodes as [|node' nodes IH]; intros acc node e He Hin.
  - destruct Hin as [H|H]; [done|]. by apply elem_of_nil in H.
  - cbn [foldl]. apply IH; [done|].
    destruct (decide (lower node' = lower node)) as [Heq|Hne].
    + left. unfold register_node.
      rewrite (entry_for_lower d node' node Heq), He, Heq.
      apply lookup_insert_eq.
    + destruct Hin as [H|H].
      * left. unfold register_node.
        destruct (entry_for d node'); [|done].
        by rewrite lookup_insert_ne.
      * apply elem_of_cons in H as [->|H]; [done|]. by right.
Qed.

Lemma register_nodes_origin nodes : ∀ acc k e,
  foldl (register_node d) acc nodes !! k = Some e →
  acc !! k = Some e ∨
  ∃ node, node ∈ nodes ∧ lower node = k ∧ entry_for d node = Some e.
Proof.
  induction nodes as [|node' nodes IH]; intros acc k e H.
  - by left.
  - cbn [foldl] in H. apply IH in H as [H|(node & Hin & Hk & He)].
    + unfold register_node in H.
      destruct (entry_for d node') as [e'|] eqn:He'; [|by left].
      destruct (decide (lower node' = k)) as [<-|Hne].
      * rewrite lookup_insert_eq in H. injection H as <-.
        right. exists node'. split; [apply elem_of_cons; by left|done].
      * rewrite lookup_insert_ne in H by done. by left.
    + right. exists node. split; [apply elem_of_cons; by right|done].
Qed.

Lemma load_preloaded_json_run ser sess file (s : system X) raw nodes w :
  read_text X file (world s) = Some raw →
  json_loads X (replace (replace raw "devxxxx" (lower ser))
                        "DEVXXXX" (upper ser)) = Ok (JObj d) →
  listNodes X sess ("/" +:+ ser +:+ "/*") (world s) = (Ok nodes, w) →
  _load_preloaded_json X ser sess file s
  = (Ok (Some (foldl (register_node d) ∅ nodes)),
     {| world := w; calls := calls s ++ [ListNodes ("/" +:+ ser +:+ "/*")];
        logged := logged s
                  ++ (unknown_node_record
                      <$> List.filter (skipped d) nodes);
        warned := warned s |}).
Proof.
  intros Hread Hloads Hlist. unfold _load_preloaded_json. rewrite Hread.
  unfold bind at 1, lift_result at 1. rewrite Hloads.
  unfold bind at 1, ext at 1. rewrite Hlist.
  unfold bind at 1. rewrite match_nodes_run. reflexivity.
Qed.

End Reconcile.

(** C4, as stated, fails: the data server of the example lists
    [/zi/about/version] with the nodes of [dev1234]; the static document has
    no entry for it, and [_load_preloaded_json] neither registers it nor logs
    a warning for it.  The one warning logged is for another node. *)
Lemma zi_node_dropped_silently :
  ∃ m s',
    listNodes (example 0 (Ok ""%string)) tt "/dev1234/*" tt
    = (Ok example_nodes, tt) ∧
    "/zi/about/version"%string ∈ example_nodes ∧
    _load_preloaded_json (example 0 (Ok ""%string)) "dev1234" tt nodedoc_hf2
      (example_start 0 (Ok ""%string)) = (Ok (Some m), s') ∧
    m !! lower "/zi/about/version" = None ∧
    logged s' = [LogWarning (unknown_node_msg "/dev1234/unknown/0/x")] ∧
    LogWarning (unknown_node_msg "/zi/about/version") ∉ logged s'.
Proof.
  eexists _, _. split; [reflexivity|].
  split; [unfold example_nodes; set_solver|].
  split; [vm_compute; reflexivity|].
  split; [vm_compute; reflexivity|].
  split; [vm_compute; reflexivity|].
  intros H. cbn [logged] in H.
  apply elem_of_cons in H as [H|H]; [discriminate H|].
  by apply elem_of_nil in H.
Qed.

(** C4, amended: when the static document parses to an object whose values
    are objects, [_load_preloaded_json] returns a mapping, and every listed
    node that does not start with [/zi/] is either registered under its
    lowercase path or the subject of a logged warning.  A listed node is
    registered exactly when the document has a non-empty entry under its
    key; a listed node that starts with [/zi/] and has no such entry is left
    out of the mapping and no warning is logged for it. *)
Theorem listed_nodes_registered_or_logged X ser sess file (s : system X)
    raw d nodes w :
  read_text X file (world s) = Some raw →
  json_loads X (replace (replace raw "devxxxx" (lower ser))
                        "DEVXXXX" (upper ser)) = Ok (JObj d) →
  objects_only d →
  listNodes X sess ("/" +:+ ser +:+ "/*") (world s) = (Ok nodes, w) →
  ∃ m s' new_log,
    _load_preloaded_json X ser sess file s = (Ok (Some m), s') ∧
    logged s' = logged s ++ new_log ∧
    (∀ node, node ∈ nodes → startswith node "/zi/" = false →
       is_Some (m !! lower node)
       ∨ LogWarning (unknown_node_msg node) ∈ new_log) ∧
    (∀ node, node ∈ nodes →
       is_Some (m !! lower node) ↔ is_Some (entry_for d node)) ∧
    (∀ node, node ∈ nodes → startswith node "/zi/" = true →
       entry_for d node = None →
       m !! lower node = None
       ∧ LogWarning (unknown_node_msg node) ∉ new_log).
Proof.
  intros Hread Hloads Hobjects Hlist.
  rewrite (load_preloaded_json_run X d Hobjects _ _ _ _ _ _ _
             Hread Hloads Hlist).
  eexists _, _, _. split; [reflexivity|]. split; [reflexivity|].
  assert (Hreg : ∀ node, node ∈ nodes →
            is_Some (foldl (register_node d) ∅ nodes !! lower node)
            ↔ is_Some (entry_for d node)).
  { intros node Hin. split.
    - intros [e He].
      apply register_nodes_origin in He as [He|(node' & _ & Hk & He)].
      + by rewrite lookup_empty in He.
      + rewrite <- (entry_for_lower d node' node Hk), He. by eexists.
    - intros [e He]. exists e. apply register_nodes_entry; auto. }
  assert (Hlog : ∀ node,
            LogWarning (unknown_node_msg node)
            ∈ unknown_node_record <$> List.filter (skipped d) nodes →
            node ∈ nodes ∧ skipped d node = true).
  { intros node (node' & Heq & Hin)%list_elem_of_fmap.
    apply (f_equal (λ r, match r with
                         | LogWarning msg | LogInfo msg => msg
                         end)) in Heq.
    apply unknown_node_msg_inj in Heq. subst node'.
    apply list_elem_of_In, filter_In in Hin as [Hin Hskipped].
    split; [by apply list_elem_of_In|done]. }
  split; [|split; [done|]].
  - intros node Hin Hzi.
    destruct (entry_for d node) as [e|] eqn:He.
    + left. apply Hreg; [done|]. by eexists.
    + right. apply list_elem_of_fmap. exists node. split; [done|].
      apply list_elem_of_In, filter_In. split; [by apply list_elem_of_In|].
      unfold skipped. by rewrite He, Hzi.
  - intros node Hin Hzi He. split.
    + apply eq_None_not_Some. rewrite (Hreg node Hin), He.
      by intros [? ?].
    + intros [_ Hskipped]%Hlog. unfold skipped in Hskipped.
      by rewrite He, Hzi in Hskipped.
Qed.

Lemma listed_nodes_registered_or_logged_witness :
  ∃ m s' new_log,
    _load_preloaded_json (example 0 (Ok ""%string)) "dev1234" tt nodedoc_hf2
      (example_start 0 (Ok ""%string)) = (Ok (Some m), s') ∧
    logged s' = [] ++ new_log ∧
    (is_Some (m !! lower "/dev1234/demods/3/rate")
     ∨ LogWarning (unknown_node_msg "/dev1234/demods/3/rate") ∈ new_log) ∧
    (is_Some (m !! lower "/dev1234/unknown/0/x")
     ∨ LogWarning (unknown_node_msg "/dev1234/unknown/0/x") ∈ new_log).
Proof.
  destruct (listed_nodes_registered_or_logged (example 0 (Ok ""%string))
              "dev1234" tt nodedoc_hf2 (example_start 0 (Ok ""%string))
              "/devxxxx/demods/n/rate"
              [("/dev1234/demods/n/rate"%string,
                JObj [("Node"%string, JStr "/DEV1234/DEMODS/N/RATE");
                      ("Properties"%string, JStr "Read, Write, Setting")])]
              example_nodes tt eq_refl eq_refl
              ltac:(repeat constructor; by eexists) eq_refl)
    as (m & s' & new_log & Hrun & Hlog & Hall & _).
  exists m, s', new_log. split; [exact Hrun|]. split; [exact Hlog|]. split.
  - apply Hall; [unfold example_nodes; set_solver | reflexivity].
  - apply Hall; [unfold example_nodes; set_solver | reflexivity].
Defined.

(** C5: for the device [dev1234], when the static document, after the
    substitution of the serial, has a non-empty entry under
    [/dev1234/demods/n/rate] and the listing reports
    [/dev1234/demods/3/rate], the mapping that [_load_preloaded_json]
    returns has an entry under [/dev1234/demods/3/rate], and the [Node]
    field of that entry is ["/DEV1234/DEMODS/3/RATE"]. *)
Theorem demods_rate_entry X sess file (s : system X) raw d fields nodes w :
  read_text X file (world s) = Some raw →
  json_loads X (replace (replace raw "devxxxx" (lower "dev1234"))
                        "DEVXXXX" (upper "dev1234")) = Ok (JObj d) →
  objects_only d →
  dict_get "/dev1234/demods/n/rate" d = Some (JObj fields) →
  fields ≠ [] →
  listNodes X sess "/dev1234/*" (world s) = (Ok nodes, w) →
  "/dev1234/demods/3/rate"%string ∈ nodes →
  ∃ m s' entry,
    _load_preloaded_json X "dev1234" sess file s = (Ok (Some m), s') ∧
    m !! "/dev1234/demods/3/rate"%string = Some entry ∧
    json_getitem entry "Node" = Ok (JStr "/DEV1234/DEMODS/3/RATE").
Proof.
  intros Hread Hloads Hobjects Hentry Hfields Hlist Hin.
  rewrite (load_preloaded_json_run X d Hobjects "dev1234" _ _ _ _ _ _
             Hread Hloads Hlist).
  destruct fields as [|f fs]; [done|].
  eexists _, _, _. split; [reflexivity|]. split.
  - change "/dev1234/demods/3/rate"%string
      with (lower "/dev1234/demods/3/rate") at 1.
    apply register_nodes_entry; [|by right].
    unfold entry_for.
    change (node_key "/dev1234/demods/3/rate")
      with "/dev1234/demods/n/rate"%string.
    rewrite Hentry. reflexivity.
  - cbn [json_getitem]. rewrite dict_get_set. reflexivity.
Qed.

Lemma demods_rate_entry_witness :
  ∃ m s' entry,
    _load_preloaded_json (example 0 (Ok ""%string)) "dev1234" tt nodedoc_hf2
      (example_start 0 (Ok ""%string)) = (Ok (Some m), s') ∧
    m !! "/dev1234/demods/3/rate"%string = Some entry ∧
    json_getitem entry "Node" = Ok (JStr "/DEV1234/DEMODS/3/RATE").
Proof.
  apply (demods_rate_entry (example 0 (Ok ""%string)) tt nodedoc_hf2
           (example_start 0 (Ok ""%string)) "/devxxxx/demods/n/rate"
           [("/dev1234/demods/n/rate"%string,
             JObj [("Node"%string, JStr "/DEV1234/DEMODS/N/RATE");
                   ("Properties"%string, JStr "Read, Write, Setting")])]
           [("Node"%string, JStr "/DEV1234/DEMODS/N/RATE");
            ("Properties"%string, JStr "Read, Write, Setting")]
           example_nodes tt eq_refl eq_refl).
  - repeat constructor. by eexists.
  - reflexivity.
  - discriminate.
  - reflexivity.
  - unfold example_nodes. set_solver.
Defined.

(** ** The facade on the data server of the examples *)

Lemma get_streamingnodes_scans_once_witness :
  ∃ i' s',
    get_streamingnodes (example 0 (Ok ""%string))
      (example_instance 0 (Ok ""%string), example_start 0 (Ok ""%string))
    = (Ok ["/dev1234/demods/0/sample"%string], (i', s')) ∧
    calls s' = [] ++ [IterNodes].
Proof.
  destruct (get_streamingnodes_scans_once (example 0 (Ok ""%string))
              "24.10" "0.4" "24.10.64896" "0.4.0"
              (example_instance 0 (Ok ""%string))
              (example_start 0 (Ok ""%string))
              example_tree tt eq_refl eq_refl
              ltac:(repeat constructor))
    as (i' & s' & Hfirst & Hcalls & _).
  exists i', s'. split; [exact Hfirst | exact Hcalls].
Defined.


Lemma identity_is_immutable_witness :
  serial (run_operations (example 0 (Ok ""%string))
            "24.10" "0.4" "24.10.64896" "0.4.0"
            [Get_streamingnodes; Device_options; Check_compatibility;
             Factory_reset true 30; Set_transaction]
            (example_instance 0 (Ok ""%string),
             example_start 0 (Ok ""%string))).1
  = "dev1234"%string.
Proof.
  edestruct (identity_is_immutable (example 0 (Ok ""%string))
               "24.10" "0.4" "24.10.64896" "0.4.0"
               "BaseInstrument" "dev1234" "HF2LI" tt
               (example_start 0 (Ok ""%string))) as [_ Hops].
  { vm_compute. reflexivity. }
  apply (Hops [Get_streamingnodes; Device_options; Check_compatibility;
               Factory_reset true 30; Set_transaction]
              (example_start 0 (Ok ""%string))).
Defined.

(** * Further properties of the driver *)

(** ** [_version_string_to_tuple] *)

Lemma digit_value_nonneg c : is_ascii_digit c = true → 0 ≤ digit_value c.
Proof.
  unfold is_ascii_digit, digit_value.
  intros [H _]%andb_true_iff. apply N.leb_le in H. lia.
Qed.

Lemma int_acc_nonneg s : ∀ acc,
  string_forallb is_ascii_digit s = true → 0 ≤ acc → 0 ≤ int_acc acc s.
Proof.
  induction s as [|c s IH]; intros acc H Hacc; cbn [int_acc]; [done|].
  cbn [string_forallb] in H. apply andb_true_iff in H as [Hc Hs].
  apply IH; [done|]. pose proof (digit_value_nonneg c Hc). lia.
Qed.

Lemma map_result_Ok {A B} (f : A → result B) l : ∀ t,
  map_result f l = Ok t → Forall2 (λ x y, f x = Ok y) l t.
Proof.
  induction l as [|x l IH]; intros t; cbn [map_result].
  - intros [= <-]. constructor.
  - destruct (f x) as [y|e] eqn:Hx; cbn [bind_result]; [|done].
    destruct (map_result f l) as [ys|e]; cbn [bind_result]; [|done].
    intros [= <-]. constructor; [done|]. by apply IH.
Qed.

Lemma converted_part_nonneg v x :
  (if isdigit v then int v else Ok 0) = Ok x → 0 ≤ x.
Proof.
  unfold int. destruct (isdigit v); [|by intros [= <-]].
  cbn [andb].
  destruct (string_forallb is_ascii_digit v) eqn:E; [|done].
  intros [= <-]. by apply int_acc_nonneg.
Qed.

(** Whenever the conversion returns, no component is negative, there are at
    most four of them, exactly four for a string of three or more parts, and
    one per part for a shorter string. *)
Theorem version_tuple_components version t :
  _version_string_to_tuple version = Ok t →
  Forall (λ x, 0 ≤ x) t ∧ (length t ≤ 4)%nat ∧
  ((3 ≤ length (str_split "." version))%nat → length t = 4%nat) ∧
  ((length (str_split "." version) < 3)%nat →
   length t = length (str_split "." version)).
Proof.
  unfold _version_string_to_tuple. intros H%map_result_Ok.
  pose proof (Forall2_length _ _ _ H) as Hlen.
  rewrite length_take in Hlen.
  split; [|split; [lia|split]].
  - clear Hlen. induction H as [|v x parts t Hv _ IH]; constructor; [|done].
    by apply converted_part_nonneg in Hv.
  - intros Hparts. rewrite <- Hlen.
    destruct (Nat.eqb_spec (length (str_split "." version)) 3) as [E|E].
    + unfold list_insert_at.
      rewrite length_app, length_take, length_cons, length_drop. lia.
    + lia.
  - intros Hparts. rewrite <- Hlen.
    destruct (Nat.eqb_spec (length (str_split "." version)) 3); lia.
Qed.

Lemma version_tuple_components_witness :
  Forall (λ x, 0 ≤ x) [25; 4; 0; 17] ∧ (length [25; 4; 0; 17] ≤ 4)%nat.
Proof.
  destruct (version_tuple_components "25.04.-3.17" [25; 4; 0; 17] eq_refl)
    as (Hnonneg & Hlen & _).
  split; [exact Hnonneg | exact Hlen].
Defined.

(** ** [_check_python_versions] *)

Lemma check_python_versions_two_parts_witness :
  (∃ msg, _check_python_versions "24.10" "0.4"
            [24; 9; 0; 64896] [0; 4; 0; 0] = Raise (ToolkitError msg)) ∧
  _check_python_versions "24.10" "0.4" [24; 10; 0; 64896] [0; 4; 0; 0]
  = Ok tt.
Proof.
  split.
  - apply (check_python_versions_two_parts "24.10" "0.4" 24 10 0 4
             24 9 [0; 64896] 0 4 [0; 0] eq_refl eq_refl).
    left. unfold major_minor_lt. lia.
  - apply (check_python_versions_two_parts "24.10" "0.4" 24 10 0 4
             24 10 [0; 64896] 0 4 [0; 0] eq_refl eq_refl);
      unfold major_minor_lt; lia.
Defined.

Lemma check_python_versions_longer_minimum_witness :
  _check_python_versions "24.10" "0.4.0" [24; 10; 0; 64896] [0; 4; 9; 9]
  = Raise (ToolkitError (utils_too_old_msg "0.4.0" 0 4)).
Proof.
  exact (check_python_versions_longer_minimum "24.10" "0.4.0" [24; 10]
           0 4 0 [0] [24; 10; 0; 64896] [9; 9] eq_refl eq_refl eq_refl).
Defined.

(** The check of [zhinst.core] comes first: when the installed core is below
    its minimum, its error is the one raised, whatever the installed
    [zhinst.utils] and its minimum are, and the text of the error is built
    from the major component and the minimum alone. *)
Theorem check_python_versions_core_first
    min_core min_utils mc z0 zs utils :
  _version_string_to_tuple min_core = Ok mc →
  tuple_lt (take 2 (z0 :: zs)) mc = true →
  _check_python_versions min_core min_utils (z0 :: zs) utils
  = Raise (ToolkitError (core_too_old_msg min_core z0 [z0])).
Proof.
  intros Hmin Hlt. unfold _check_python_versions. rewrite Hmin.
  cbn [bind_result]. rewrite Hlt. cbn. by rewrite take_0.
Qed.

Lemma check_python_versions_core_first_witness :
  _check_python_versions "24.10" "not.a.version" [23; 6; 0; 1] []
  = Raise (ToolkitError (core_too_old_msg "24.10" 23 [23])).
Proof.
  exact (check_python_versions_core_first "24.10" "not.a.version" [24; 10]
           23 [6; 0; 1] [] eq_refl eq_refl).
Defined.

(** ** [_check_labone_version] *)

(** The fourth component, the build number, plays no part, and versions
    that agree in major, minor and patch pass without a warning. *)
Theorem check_labone_version_ignores_build
    (z0 z1 z2 z3 z3' l0 l1 l2 l3 l3' : Z) :
  _check_labone_version [z0; z1; z2; z3] [l0; l1; l2; l3]
  = _check_labone_version [z0; z1; z2; z3'] [l0; l1; l2; l3'] ∧
  _check_labone_version [z0; z1; z2; z3] [z0; z1; z2; l3] = Ok [].
Proof.
  split; [reflexivity|].
  unfold _check_labone_version, tuple_gt. simpl take.
  replace (tuple_lt [z0; z1] [z0; z1]) with false
    by (symmetry; apply tuple_lt_pair_false; unfold major_minor_lt; lia).
  cbn. by rewrite Z.eqb_refl.
Qed.

(** With equal major and minor, a tuple of fewer than three components on
    either side makes the comparison of the patch components raise
    [IndexError]: this is what the tuples of two-part version strings
    meet. *)
Theorem check_labone_version_short_tuple (zi lab : list Z) :
  (length zi < 3)%nat ∨ (length lab < 3)%nat →
  tuple_lt (take 2 lab) (take 2 zi) = false →
  tuple_lt (take 2 zi) (take 2 lab) = false →
  _check_labone_version zi lab
  = Raise (IndexError "tuple index out of range").
Proof.
  intros Hshort Hlt Hgt. unfold _check_labone_version, tuple_gt.
  rewrite Hlt, Hgt. unfold index.
  destruct (lab !! 2%nat) as [l2|] eqn:El; [|done].
  cbn [bind_result].
  destruct (zi !! 2%nat) as [z2|] eqn:Ez; [|done].
  apply lookup_lt_Some in El, Ez. lia.
Qed.

Lemma check_labone_version_short_tuple_witness :
  _version_string_to_tuple "24.10" = Ok [24; 10] ∧
  _check_labone_version [24; 10] [24; 10]
  = Raise (IndexError "tuple index out of range").
Proof.
  split; [reflexivity|].
  apply (check_labone_version_short_tuple [24; 10] [24; 10]);
    [left; cbn; lia | reflexivity | reflexivity].
Defined.

(** ** The status flags *)

Lemma status_mask_bits k :
  Z.testbit status_mask k = (4 <=? k) && (k <=? 8).
Proof.
  unfold status_mask.
  destruct (Z.leb_spec 4 k) as [H4|H4]; cbn [andb].
  - destruct (Z.leb_spec k 8) as [H8|H8].
    + assert (k = 4 ∨ k = 5 ∨ k = 6 ∨ k = 7 ∨ k = 8) as [->|[->|[->|[->| ->]]]]
        by lia; reflexivity.
    + apply Z.bits_above_log2; [lia|]. change (Z.log2 496) with 8. lia.
  - destruct (Z.ltb_spec k 0) as [Hneg|Hpos].
    + by apply Z.testbit_neg_r.
    + assert (k = 0 ∨ k = 1 ∨ k = 2 ∨ k = 3) as [->|[->|[->| ->]]]
        by lia; reflexivity.
Qed.

Lemma masked_bit n k :
  4 ≤ k ≤ 8 → Z.testbit (Z.land n status_mask) k = Z.testbit n k.
Proof.
  intros Hk. rewrite Z.land_spec, status_mask_bits.
  replace (4 <=? k) with true by (symmetry; apply Z.leb_le; lia).
  replace (k <=? 8) with true by (symmetry; apply Z.leb_le; lia).
  by rewrite andb_true_r.
Qed.

(** The flags pass exactly when bits 4 to 8 are all clear; the other bits
    never matter; and when both kinds of mismatch are flagged, the request
    to update the firmware (bits 4, 5) is the one raised. *)
Theorem check_status_flag_mask (n : Z) :
  (check_status_flag n = Ok tt ↔ Z.land n status_mask = 0) ∧
  check_status_flag (Z.land n status_mask) = check_status_flag n ∧
  (Z.testbit n 8 = false → Z.testbit n 4 || Z.testbit n 5 = true →
   check_status_flag n = Raise (ToolkitError update_firmware_msg)).
Proof.
  split; [|split].
  - rewrite check_status_flag_bits. split.
    + intros H. apply Z.bits_inj'. intros k Hk.
      rewrite Z.land_spec, status_mask_bits, Z.bits_0.
      destruct (Z.leb_spec 4 k) as [H4|H4]; cbn [andb];
        [|by rewrite andb_false_r].
      destruct (Z.leb_spec k 8) as [H8|H8]; [|by rewrite andb_false_r].
      rewrite andb_true_r.
      assert (k = 4 ∨ k = 5 ∨ k = 6 ∨ k = 7 ∨ k = 8) as [->|[->|[->|[->| ->]]]]
        by lia;
        destruct (Z.testbit n 8), (Z.testbit n 4), (Z.testbit n 5),
          (Z.testbit n 6), (Z.testbit n 7); done.
    + intros H.
      assert (∀ k, 4 ≤ k ≤ 8 → Z.testbit n k = false) as Hbits.
      { intros k Hk. rewrite <- (masked_bit n k Hk), H. apply Z.bits_0. }
      by rewrite !Hbits by lia.
  - rewrite !check_status_flag_bits. by rewrite !masked_bit by lia.
  - intros H8 H45. rewrite check_status_flag_bits. by rewrite H8, H45.
Qed.

Lemma check_status_flag_mask_witness :
  check_status_flag 112
  = Raise (ToolkitError update_firmware_msg).
Proof.
  destruct (check_status_flag_mask 112) as (_ & _ & Hfirmware).
  apply Hfirmware; reflexivity.
Defined.

(** ** [_check_firmware_update_status] *)

(** A device that the answer of [/zi/devices] does not list under its
    upper-case serial makes the check raise [KeyError] with that serial,
    after the one call that fetched the answer. *)
Theorem check_firmware_update_status_unknown_device X (i : instance X)
    (s : system X) raw w d :
  getString X (_session i) "/zi/devices" (world s) = (Ok raw, w) →
  json_loads X raw = Ok (JObj d) →
  dict_get (upper (serial i)) d = None →
  _check_firmware_update_status X (i, s)
  = (Raise (KeyError (upper (serial i))),
     (i, {| world := w; calls := calls s ++ [GetString "/zi/devices"];
            logged := logged s; warned := warned s |})).
Proof.
  intros Hget Hloads Hnone.
  unfold _check_firmware_update_status, bind, self, on_system, ext,
    lift_result.
  cbn [fst snd]. rewrite Hget. cbn [fst snd]. rewrite Hloads.
  cbn [json_getitem]. by rewrite Hnone.
Qed.

Lemma check_firmware_update_status_unknown_device_witness :
  (_check_firmware_update_status (example 0 (Ok ""%string))
     (example_unknown_instance 0 (Ok ""%string),
      example_start 0 (Ok ""%string))).1
  = Raise (KeyError "DEV9999").
Proof.
  rewrite (check_firmware_update_status_unknown_device
             (example 0 (Ok ""%string))
             (example_unknown_instance 0 (Ok ""%string))
             (example_start 0 (Ok ""%string)) "devices" tt
             [("DEV1234"%string, JObj [("STATUSFLAGS"%string, JInt 0)])]
             eq_refl eq_refl eq_refl).
  reflexivity.
Defined.

(** ** The version of the data server *)

Lemma append_nil_l s : "" +:+ s = s.
Proof. reflexivity. Qed.

Lemma append_cons c a b : String c a +:+ b = String c (a +:+ b).
Proof. reflexivity. Qed.




Lemma string_forallb_impl (p q : ascii → bool) s :
  (∀ c, p c = true → q c = true) →
  string_forallb p s = true → string_forallb q s = true.
Proof.
  intros Hpq. induction s as [|c s IH]; cbn [string_forallb]; [done|].
  intros [Hc Hs]%andb_true_iff. by rewrite (Hpq c Hc), IH.
Qed.








(** ** [check_compatibility] *)

Lemma bind_ext {S A B} (m : M S A) (k k' : A → M S B) s :
  (∀ a s', k a s' = k' a s') → bind m k s = bind m k' s.
Proof. intros H. unfold bind. by destruct (m s) as [[a|e] s']. Qed.

Lemma check_labone_version_mismatch z0 z1 z2 z3 l0 l1 l2 l3 :
  (l0, l1) ≠ (z0, z1) →
  ∃ msg, _check_labone_version [z0; z1; z2; z3] [l0; l1; l2; l3]
         = Raise (ToolkitError msg).
Proof.
  intros [H|H]%major_minor_trichotomy;
    unfold _check_labone_version, tuple_gt; simpl take.
  - apply tuple_lt_pair in H. rewrite H. by eexists.
  - replace (tuple_lt [l0; l1] [z0; z1]) with false
      by (symmetry; apply tuple_lt_pair_false; unfold major_minor_lt in *;
          lia).
    apply tuple_lt_pair in H. rewrite H. by eexists.
Qed.

Section Compatibility.

Variable X : Externals.
Variable _MIN_LABONE_VERSION : string.
Variable _MIN_DEVICE_UTILS_VERSION : string.
Variable zhinst_version_str : string.
Variable utils_version_str : string.

Local Abbreviation check :=
  (check_compatibility X _MIN_LABONE_VERSION _MIN_DEVICE_UTILS_VERSION
     zhinst_version_str utils_version_str).

(** An installed package below its minimum ends the check before the data
    server is asked anything: the error is raised and the instance and the
    system are as they were. *)
Theorem check_compatibility_local_error_first (i : instance X)
    (s : system X) zi utils e :
  _version_string_to_tuple zhinst_version_str = Ok zi →
  _version_string_to_tuple utils_version_str = Ok utils →
  _check_python_versions _MIN_LABONE_VERSION _MIN_DEVICE_UTILS_VERSION
    zi utils = Raise e →
  check (i, s) = (Raise e, (i, s)).
Proof.
  intros Hzi Hutils Hlocal.
  unfold check_compatibility, bind, self, lift_result. cbn [fst snd].
  by rewrite Hzi, Hutils, Hlocal.
Qed.

Lemma check_compatibility_to_server (i : instance X) (s : system X)
    zi utils :
  _version_string_to_tuple zhinst_version_str = Ok zi →
  _version_string_to_tuple utils_version_str = Ok utils →
  _check_python_versions _MIN_LABONE_VERSION _MIN_DEVICE_UTILS_VERSION
    zi utils = Ok tt →
  check (i, s)
  = (full ←! on_system X (labone_full_version X i);
     labone_version ←! lift_result (_version_string_to_tuple full);
     warnings ←! lift_result (_check_labone_version zi labone_version);
     on_system X (warn X warnings) >>!
     _check_firmware_update_status X) (i, s).
Proof.
  intros Hzi Hutils Hlocal.
  unfold check_compatibility. unfold bind at 1, self at 1. cbn [fst snd].
  unfold bind at 1, lift_result at 1. rewrite Hzi.
  unfold bind at 1, lift_result at 1. rewrite Hutils.
  unfold bind at 1, lift_result at 1. rewrite Hlocal.
  apply bind_ext. intros full st. reflexivity.
Qed.

(** A data server whose major.minor differs from the installed
    [zhinst.core] ends the check with the version error after the one call
    that asked for the version: the device is not asked for its status. *)
Theorem check_compatibility_server_mismatch (i : instance X)
    (s : system X) z0 z1 z2 z3 utils full w l0 l1 l2 l3 :
  _version_string_to_tuple zhinst_version_str = Ok [z0; z1; z2; z3] →
  _version_string_to_tuple utils_version_str = Ok utils →
  _check_python_versions _MIN_LABONE_VERSION _MIN_DEVICE_UTILS_VERSION
    [z0; z1; z2; z3] utils = Ok tt →
  fullversion X (_session i) (world s) = (Ok full, w) →
  _version_string_to_tuple full = Ok [l0; l1; l2; l3] →
  (l0, l1) ≠ (z0, z1) →
  ∃ msg,
    check (i, s)
    = (Raise (ToolkitError msg),
       (i, {| world := w; calls := calls s ++ [FullVersion];
              logged := logged s; warned := warned s |})).
Proof.
  intros Hzi Hutils Hlocal Hfull Hlab Hne.
  destruct (check_labone_version_mismatch z0 z1 z2 z3 l0 l1 l2 l3 Hne)
    as [msg Hmsg].
  exists msg. rewrite (check_compatibility_to_server _ _ _ _ Hzi Hutils Hlocal).
  unfold bind at 1, on_system at 1, labone_full_version, try_except,
    ext at 1. cbn [fst snd]. rewrite Hfull.
  unfold bind at 1, lift_result at 1. rewrite Hlab.
  unfold bind at 1, lift_result at 1. rewrite Hmsg. reflexivity.
Qed.

(** With matching major.minor the check goes on to the device and its
    outcome is that of the status flags; a patch component that differs is
    recorded as one [RuntimeWarning] on the way and stops nothing. *)
Theorem check_compatibility_patch_warning (i : instance X) (s : system X)
    z0 z1 z2 z3 utils full w1 l2 l3 raw w2 devices info status_flag :
  _version_string_to_tuple zhinst_version_str = Ok [z0; z1; z2; z3] →
  _version_string_to_tuple utils_version_str = Ok utils →
  _check_python_versions _MIN_LABONE_VERSION _MIN_DEVICE_UTILS_VERSION
    [z0; z1; z2; z3] utils = Ok tt →
  fullversion X (_session i) (world s) = (Ok full, w1) →
  _version_string_to_tuple full = Ok [z0; z1; l2; l3] →
  getString X (_session i) "/zi/devices" w1 = (Ok raw, w2) →
  json_loads X raw = Ok devices →
  json_getitem devices (upper (serial i)) = Ok info →
  json_getitem info "STATUSFLAGS" = Ok (JInt status_flag) →
  check (i, s)
  = (check_status_flag status_flag,
     (i, {| world := w2;
            calls := (calls s ++ [FullVersion]) ++ [GetString "/zi/devices"];
            logged := logged s;
            warned := warned s
                      ++ (if l2 =? z2 then []
                          else [RuntimeWarning (patch_mismatch_msg l2 z2)])
         |})).
Proof.
  intros Hzi Hutils Hlocal Hfull Hlab Hget Hloads Hinfo Hflags.
  rewrite (check_compatibility_to_server _ _ _ _ Hzi Hutils Hlocal).
  unfold bind at 1, on_system at 1, labone_full_version, try_except,
    ext at 1. cbn [fst snd]. rewrite Hfull.
  unfold bind at 1, lift_result at 1. rewrite Hlab.
  unfold bind at 1, lift_result at 1.
  assert (_check_labone_version [z0; z1; z2; z3] [z0; z1; l2; l3]
          = Ok (if l2 =? z2 then []
                else [RuntimeWarning (patch_mismatch_msg l2 z2)])) as ->.
  { unfold _check_labone_version, tuple_gt. simpl take.
    replace (tuple_lt [z0; z1] [z0; z1]) with false
      by (symmetry; apply tuple_lt_pair_false; unfold major_minor_lt; lia).
    cbn. by destruct (l2 =? z2). }
  unfold bind at 1, on_system at 1, warn. cbn [fst snd].
  rewrite (check_firmware_update_status_run X i _ raw w2 devices info
             status_flag); [reflexivity|done..].
Qed.

End Compatibility.

Lemma check_compatibility_local_error_first_witness :
  ∃ msg,
    check_compatibility (example 0 (Ok ""%string))
      "24.10" "0.4" "23.06.1" "0.4.0"
      (example_instance 0 (Ok ""%string), example_start 0 (Ok ""%string))
    = (Raise (ToolkitError msg),
       (example_instance 0 (Ok ""%string), example_start 0 (Ok ""%string))).
Proof.
  eexists.
  apply (check_compatibility_local_error_first (example 0 (Ok ""%string))
           "24.10" "0.4" "23.06.1" "0.4.0" _ _ [23; 6; 0; 1] [0; 4; 0; 0]);
    reflexivity.
Defined.

Lemma check_compatibility_server_mismatch_witness :
  ∃ msg s',
    check_compatibility (example 0 (Ok ""%string))
      "24.10" "0.4" "25.04.1.17" "0.4.0"
      (example_instance 0 (Ok ""%string), example_start 0 (Ok ""%string))
    = (Raise (ToolkitError msg), (example_instance 0 (Ok ""%string), s')) ∧
    calls s' = [] ++ [FullVersion].
Proof.
  destruct (check_compatibility_server_mismatch (example 0 (Ok ""%string))
              "24.10" "0.4" "25.04.1.17" "0.4.0"
              (example_instance 0 (Ok ""%string))
              (example_start 0 (Ok ""%string))
              25 4 1 17 [0; 4; 0; 0] "24.10.0.64896" tt 24 10 0 64896
              eq_refl eq_refl eq_refl eq_refl eq_refl ltac:(done))
    as [msg Hrun].
  eexists msg, _. split; [exact Hrun | reflexivity].
Defined.

Lemma check_compatibility_patch_warning_witness :
  ∃ s',
    check_compatibility (example 0 (Ok ""%string))
      "24.10" "0.4" "24.10.1.17" "0.4.0"
      (example_instance 0 (Ok ""%string), example_start 0 (Ok ""%string))
    = (Ok tt, (example_instance 0 (Ok ""%string), s')) ∧
    warned s' = [] ++ [RuntimeWarning (patch_mismatch_msg 0 1)].
Proof.
  eexists. split.
  - apply (check_compatibility_patch_warning (example 0 (Ok ""%string))
             "24.10" "0.4" "24.10.1.17" "0.4.0"
             (example_instance 0 (Ok ""%string))
             (example_start 0 (Ok ""%string))
             24 10 1 17 [0; 4; 0; 0] "24.10.0.64896" tt 0 64896
             "devices" tt
             (JObj [("DEV1234"%string,
                     JObj [("STATUSFLAGS"%string, JInt 0)])])
             (JObj [("STATUSFLAGS"%string, JInt 0)]) 0);
      reflexivity.
  - reflexivity.
Defined.

(** ** [factory_reset] *)

(** The preset is loaded, then the busy flag is awaited, then the error node
    is read, in this order.  A failure of the wait, such as a timeout, is
    raised as it is and the error node is not read.  A value of the error
    node that counts as true raises a [ToolkitError] that names the device in
    upper case, and nothing is logged; otherwise the reset returns and logs
    one record at level info. *)
Theorem factory_reset_outcomes X (i : instance X) (s : system X)
    deep timeout w1 :
  node_set X (_root i) "system/preset/load" (JInt 1) deep (world s)
  = (Ok tt, w1) →
  (∀ e w2,
     wait_for_state_change X (_root i) "system/preset/busy" (JInt 0)
       timeout w1 = (Raise e, w2) →
     factory_reset X deep timeout (i, s)
     = (Raise e,
        (i, {| world := w2;
               calls := (calls s
                         ++ [NodeSet "system/preset/load" (JInt 1) deep])
                        ++ [WaitForStateChange "system/preset/busy"
                              (JInt 0) timeout];
               logged := logged s; warned := warned s |}))) ∧
  (∀ w2 timestamp error w3,
     wait_for_state_change X (_root i) "system/preset/busy" (JInt 0)
       timeout w1 = (Ok tt, w2) →
     node_get_deep X (_root i) "system/preset/error" w2
     = (Ok (timestamp, error), w3) →
     factory_reset X deep timeout (i, s)
     = (if truthy error
        then Raise (ToolkitError ("Failed to load factory preset to device "
                                  +:+ upper (serial i) +:+ "."))
        else Ok tt,
        (i, {| world := w3;
               calls := ((calls s
                          ++ [NodeSet "system/preset/load" (JInt 1) deep])
                         ++ [WaitForStateChange "system/preset/busy"
                               (JInt 0) timeout])
                        ++ [NodeGet "system/preset/error" true];
               logged := logged s
                         ++ (if truthy error then []
                             else [LogInfo
                                     ("Factory preset is loaded to device "
                                      +:+ upper (serial i) +:+ ".")]);
               warned := warned s |}))).
Proof.
  intros Hset. split.
  - intros e w2 Hwait.
    unfold factory_reset, bind, self, on_system, ext. cbn [fst snd].
    rewrite Hset. cbn [fst snd world]. by rewrite Hwait.
  - intros w2 timestamp error w3 Hwait Hget.
    unfold factory_reset, bind, self, on_system, ext. cbn [fst snd].
    rewrite Hset. cbn [fst snd world]. rewrite Hwait. cbn [fst snd world].
    rewrite Hget. cbn [fst snd].
    destruct (truthy error).
    + unfold raise. by rewrite app_nil_r.
    + reflexivity.
Qed.

Lemma factory_reset_outcomes_witness :
  (factory_reset faulty_server true 30 (faulty_instance, faulty_start)).1
  = Raise (ToolkitError "Failed to load factory preset to device DEV1234.").
Proof.
  destruct (factory_reset_outcomes faulty_server faulty_instance
              faulty_start true 30 tt eq_refl) as [_ Hread].
  rewrite (Hread tt (JInt 0) (JInt 1) tt eq_refl eq_refl). reflexivity.
Defined.

(** ** [get_streamingnodes] after a failure *)

Lemma scan_nodes_failure X pre node info post e : ∀ (i : instance X)
    (s : system X) acc,
  _streaming_nodes i = Some acc →
  Forall (λ it, is_Ok (stream_test it.2) = true) pre →
  stream_test info = Raise e →
  scan_nodes X (pre ++ (node, info) :: post) (i, s)
  = (Raise e,
     (with_streaming_nodes i
        (Some (acc ++ (List.filter (λ it, has_stream it.2) pre).*1)), s)).
Proof.
  induction pre as [|[node' info'] pre IH]; intros i s acc Hacc Hpre Hinfo.
  - cbn [app scan_nodes List.filter fmap list_fmap].
    rewrite app_nil_r, with_streaming_nodes_id by done.
    unfold stream_test in Hinfo. unfold bind at 1, lift_result at 1.
    destruct (json_get info "Properties") as [properties|e'];
      cbn [bind_result] in Hinfo.
    + unfold bind at 1, lift_result at 1. by rewrite Hinfo.
    + by injection Hinfo as ->.
  - inversion Hpre as [|? ? Hinfo' Hrest]; subst. cbn [snd] in Hinfo'.
    cbn [app scan_nodes List.filter]. unfold has_stream at 1. cbn [snd].
    unfold stream_test in Hinfo' |- *. unfold bind at 1, lift_result at 1.
    destruct (json_get info' "Properties") as [properties|e'];
      cbn [bind_result] in Hinfo' |- *; [|done].
    unfold bind at 1, lift_result at 1.
    destruct (json_contains "Stream" properties) as [[|]|e'];
      cbn [is_Ok] in Hinfo'; [| |done].
    + unfold bind at 1. unfold append_streaming_node at 1.
      unfold bind at 1, self, set_self. cbn [fst snd]. rewrite Hacc.
      cbn [default].
      rewrite (IH _ s (acc ++ [node'])); [|done|done|done].
      cbn [fmap list_fmap fst]. unfold with_streaming_nodes. cbn.
      by rewrite <- app_assoc.
    + unfold bind at 1, ret at 1. by apply IH.
Qed.

(** The list is set before the scan: when the test of an entry raises, for
    an entry without properties say, the first call raises, and the nodes
    found up to that entry stay as the list.  The next call returns this
    incomplete list without scanning again. *)
Theorem get_streamingnodes_keeps_partial_list X (i : instance X)
    (s : system X) pre node info post e w :
  _streaming_nodes i = None →
  iter_nodes X (_root i) (world s) = (Ok (pre ++ (node, info) :: post), w) →
  Forall (λ it, is_Ok (stream_test it.2) = true) pre →
  stream_test info = Raise e →
  ∃ i' s',
    get_streamingnodes X (i, s) = (Raise e, (i', s')) ∧
    ∀ s'',
      get_streamingnodes X (i', s'')
      = (Ok (List.filter (λ it, has_stream it.2) pre).*1, (i', s'')).
Proof.
  intros Hnone Hiter Hpre Hinfo. eexists _, _. split.
  - unfold get_streamingnodes. unfold bind at 1, self at 1. cbn [fst snd].
    rewrite Hnone. unfold bind at 1, set_self at 1. cbn [fst snd].
    unfold bind at 1, on_system, iterate. cbn [fst snd]. rewrite Hiter.
    cbn [fst snd]. unfold bind at 1.
    rewrite (scan_nodes_failure X pre node info post e _ _ []);
      [reflexivity|done..].
  - intros s''. by apply get_streamingnodes_cached_run.
Qed.

Lemma get_streamingnodes_keeps_partial_list_witness :
  ∃ i' s',
    get_streamingnodes faulty_server (faulty_instance, faulty_start)
    = (Raise (TypeError "argument is not iterable"), (i', s')) ∧
    get_streamingnodes faulty_server (i', s')
    = (Ok ["/dev1234/demods/0/sample"%string], (i', s')).
Proof.
  destruct (get_streamingnodes_keeps_partial_list faulty_server
              faulty_instance faulty_start
              [("/dev1234/demods/0/sample"%string,
                JObj [("Properties"%string, JStr "Read, Stream")])]
              "/dev1234/stats/cmdstream/bandwidth"
              (JObj [("Node"%string, JStr "")])
              [("/dev1234/demods/1/sample"%string,
                JObj [("Properties"%string, JStr "Read, Stream")])]
              (TypeError "argument is not iterable") tt
              eq_refl eq_refl ltac:(repeat constructor) eq_refl)
    as (i' & s' & Hfirst & Hnext).
  exists i', s'. split; [exact Hfirst | exact (Hnext s')].
Defined.

(** The iteration over the tree is a generator, which may raise after it
    has yielded some pairs: then the first call raises, and the streaming
    nodes among the pairs yielded before the failure stay as the list.
    Every later call returns this incomplete list, the empty list when the
    iteration failed before its first pair, without iterating again. *)
Theorem get_streamingnodes_after_failed_iteration X (i : instance X)
    (s : system X) e w :
  _streaming_nodes i = None →
  iter_nodes X (_root i) (world s) = (Raise e, w) →
  Forall (λ it, is_Ok (stream_test it.2) = true)
         (iter_yielded X (_root i) (world s)) →
  ∃ i' s',
    get_streamingnodes X (i, s) = (Raise e, (i', s')) ∧
    calls s' = calls s ++ [IterNodes] ∧
    (∀ s'',
       get_streamingnodes X (i', s'')
       = (Ok (List.filter (λ it, has_stream it.2)
                          (iter_yielded X (_root i) (world s))).*1,
          (i', s''))) ∧
    (iter_yielded X (_root i) (world s) = [] →
     ∀ s'', get_streamingnodes X (i', s'') = (Ok [], (i', s''))).
Proof.
  intros Hnone Hiter Hyielded.
  assert (get_streamingnodes X (i, s)
          = (Raise e,
             (with_streaming_nodes i
                (Some (List.filter (λ it, has_stream it.2)
                                   (iter_yielded X (_root i) (world s))).*1),
              {| world := w; calls := calls s ++ [IterNodes];
                 logged := logged s; warned := warned s |}))) as Hrun.
  { unfold get_streamingnodes. unfold bind at 1, self at 1. cbn [fst snd].
    rewrite Hnone. unfold bind at 1, set_self at 1. cbn [fst snd].
    unfold bind at 1, on_system, iterate. cbn [fst snd]. rewrite Hiter.
    cbn [fst snd]. unfold bind at 1.
    rewrite (scan_nodes_run X _ _ _ []); [|done|done].
    reflexivity. }
  rewrite Hrun. eexists _, _. split; [reflexivity|].
  split; [reflexivity|]. split.
  - intros s''. by apply get_streamingnodes_cached_run.
  - intros Hnil s''. apply get_streamingnodes_cached_run.
    cbn [with_streaming_nodes _streaming_nodes]. by rewrite Hnil.
Qed.

Lemma get_streamingnodes_after_failed_iteration_witness :
  ∃ i' s',
    get_streamingnodes disconnected_tree_server
      (disconnected_tree_instance, disconnected_tree_start)
    = (Raise (RuntimeError "connection lost"), (i', s')) ∧
    get_streamingnodes disconnected_tree_server (i', s')
    = (Ok ["/dev1234/demods/0/sample"%string], (i', s')).
Proof.
  destruct (get_streamingnodes_after_failed_iteration
              disconnected_tree_server disconnected_tree_instance
              disconnected_tree_start (RuntimeError "connection lost") tt
              eq_refl eq_refl ltac:(repeat constructor))
    as (i' & s' & Hfirst & _ & Hnext & _).
  exists i', s'. split; [exact Hfirst | exact (Hnext s')].
Defined.

(** ** [device_options] after a failure *)

(** A failure of the fetch behind [device_options] is raised to the caller
    and nothing is kept from it, unlike the fetch of the constructor: the
    instance is as it was, and an access made when the node can be read
    fetches the value then. *)
Theorem device_options_failure_not_cached X (i : instance X)
    (s : system X) e w :
  device_options_value i = None →
  node_get X (_root i) "features/options" (world s) = (Raise e, w) →
  ∃ s',
    device_options X (i, s) = (Raise e, (i, s')) ∧
    calls s' = calls s ++ [NodeGet "features/options" false] ∧
    ∀ s'' value w',
      node_get X (_root i) "features/options" (world s'') = (Ok value, w') →
      (device_options X (i, s'')).1 = Ok value ∧
      calls (device_options X (i, s'')).2.2
      = calls s'' ++ [NodeGet "features/options" false].
Proof.
  intros Hnone Hget. eexists. split; [|split].
  - by apply device_options_failure_run.
  - reflexivity.
  - intros s'' value w' Hget'.
    unfold device_options, bind, self, on_system, ext. cbn [fst snd].
    rewrite Hnone. cbn [fst snd]. rewrite Hget'. by cbn.
Qed.

Lemma device_options_failure_not_cached_witness :
  ∃ s',
    device_options faulty_server (faulty_instance, faulty_start)
    = (Raise (RuntimeError "ZIAPINotFoundException"), (faulty_instance, s')).
Proof.
  destruct (device_options_failure_not_cached faulty_server faulty_instance
              faulty_start (RuntimeError "ZIAPINotFoundException") tt
              eq_refl eq_refl) as (s' & Hrun & _).
  exists s'. exact Hrun.
Defined.

(** ** [__init__] *)

(** The clause around the fetch of the options catches [RuntimeError] and
    the classes derived from it, of which the model has [ToolkitError]: an
    exception of any other class ends the construction at that call, before
    a node tree is made. *)
Theorem init_other_error_propagates X cls ser dt sess (s : system X) e w :
  getString X sess ("/" +:+ ser +:+ "/features/options") (world s)
  = (Raise e, w) →
  (∀ msg, e ≠ RuntimeError msg) →
  (∀ msg, e ≠ ToolkitError msg) →
  __init__ X cls ser dt sess s
  = (Raise e,
     {| world := w;
        calls := calls s ++ [GetString ("/" +:+ ser +:+ "/features/options")];
        logged := logged s; warned := warned s |}).
Proof.
  intros Hget Hruntime Htoolkit.
  assert (is_RuntimeError e = false) as He.
  { destruct e; try reflexivity; [by destruct (Htoolkit msg)
                                 | by destruct (Hruntime msg)]. }
  unfold __init__. unfold bind at 1, try_except, ext at 1.
  by rewrite Hget, He.
Qed.

Lemma init_other_error_propagates_witness :
  ∃ s',
    __init__ faulty_server "BaseInstrument" "dev1234" "MFLI" tt faulty_start
    = (Raise (TypeError "path must be str"), s').
Proof.
  eexists.
  apply (init_other_error_propagates faulty_server "BaseInstrument"
           "dev1234" "MFLI" tt faulty_start (TypeError "path must be str")
           tt eq_refl ltac:(intros; discriminate)
           ltac:(intros; discriminate)).
Defined.

(** The static document is consulted for the device types that contain
    ["HF2"] only, and only when the resource file is there: otherwise the
    options fetched are kept as they are, the node tree is made without a
    preloaded document, and the nodes of the device are not listed by the
    constructor. *)
Theorem init_without_static_document X cls ser dt sess (s : system X)
    options w1 tree w2 w3 :
  getString X sess ("/" +:+ ser +:+ "/features/options") (world s)
  = (Ok options, w1) →
  str_contains "HF2" dt = false ∨ read_text X nodedoc_hf2 w1 = None →
  new_NodeTree X sess ser ["/" +:+ ser +:+ "/*"] None w1 = (Ok tree, w2) →
  update_nodes X tree cls w2 = (Ok tt, w3) →
  __init__ X cls ser dt sess s
  = (Ok {| _serial := ser; _device_type := dt; _session := sess;
           _options := options; _streaming_nodes := None; _root := tree;
           device_options_value := None |},
     {| world := w3;
        calls := ((calls s
                   ++ [GetString ("/" +:+ ser +:+ "/features/options")])
                  ++ [NewNodeTree ser ["/" +:+ ser +:+ "/*"] None])
                 ++ [UpdateNodes cls];
        logged := logged s; warned := warned s |}).
Proof.
  intros Hget Hdoc Htree Hupdate.
  unfold __init__. unfold bind at 1, try_except, ext at 1. rewrite Hget.
  unfold bind at 1.
  assert ((if str_contains "HF2" dt
           then _load_preloaded_json X ser sess nodedoc_hf2
           else ret None)
            {| world := w1;
               calls := calls s
                        ++ [GetString ("/" +:+ ser +:+ "/features/options")];
               logged := logged s; warned := warned s |}
          = (Ok None,
             {| world := w1;
                calls := calls s
                         ++ [GetString ("/" +:+ ser +:+ "/features/options")];
                logged := logged s; warned := warned s |})) as ->.
  { destruct Hdoc as [->|Hfile]; [reflexivity|].
    destruct (str_contains "HF2" dt); [|reflexivity].
    unfold _load_preloaded_json. cbn [world]. by rewrite Hfile. }
  unfold bind at 1, ext at 1. cbn [world]. rewrite Htree.
  unfold bind at 1, ext at 1. cbn [world]. rewrite Hupdate. reflexivity.
Qed.

Lemma init_without_static_document_witness :
  ∃ i s',
    __init__ (example 0 (Ok "MF\nMD"%string)) "BaseInstrument" "dev1234"
      "MFLI" tt (example_start 0 (Ok "MF\nMD"%string)) = (Ok i, s') ∧
    _options i = "MF\nMD"%string ∧
    ListNodes "/dev1234/*" ∉ calls s'.
Proof.
  eexists _, _. split; [|split].
  - apply (init_without_static_document (example 0 (Ok "MF\nMD"%string))
             "BaseInstrument" "dev1234" "MFLI" tt
             (example_start 0 (Ok "MF\nMD"%string)) "MF\nMD" tt tt tt tt
             eq_refl (or_introl eq_refl) eq_refl eq_refl).
  - reflexivity.
  - cbn [calls example_start app]. intros Hin.
    repeat (apply elem_of_cons in Hin as [Hin|Hin]; [discriminate Hin|]).
    by apply elem_of_nil in Hin.
Defined.

(** ** [node_key] *)

Lemma append_nil_r s : s +:+ "" = s.
Proof. induction s as [|c s IH]; [done|]. by rewrite append_cons, IH. Qed.

Lemma append_assoc' a b c : (a +:+ b) +:+ c = a +:+ (b +:+ c).
Proof.
  induction a as [|x a IH]; [by rewrite !append_nil_l|].
  by rewrite !append_cons, IH.
Qed.

Lemma re_sub_unmatched m repl a : ∀ before b,
  unmatched m before a b →
  re_sub m repl O before (a +:+ b)
  = a +:+ re_sub m repl O (string_rev_append a before) b.
Proof.
  induction a as [|c a IH]; intros before b Hun.
  - by rewrite !append_nil_l.
  - destruct Hun as [Hnone Hun]. rewrite !append_cons.
    cbn [re_sub string_rev_append]. rewrite Hnone. by rewrite IH.
Qed.

Lemma re_sub_skip m repl a : ∀ k before b,
  re_sub m repl (String.length a + k) before (a +:+ b)
  = re_sub m repl k (string_rev_append a before) b.
Proof.
  induction a as [|c a IH]; intros k before b.
  - by rewrite append_nil_l.
  - rewrite append_cons. cbn [String.length Nat.add re_sub string_rev_append].
    apply IH.
Qed.

Lemma string_rev_append_app a : ∀ acc acc',
  string_rev_append a (acc +:+ acc') = string_rev_append a acc +:+ acc'.
Proof.
  induction a as [|c a IH]; intros acc acc'; cbn [string_rev_append]; [done|].
  by rewrite <- IH, append_cons.
Qed.

Lemma string_rev_append_rev a acc :
  string_rev_append a acc = string_rev a +:+ acc.
Proof.
  unfold string_rev. rewrite <- string_rev_append_app.
  by rewrite append_nil_l.
Qed.

Lemma startswith_before_slash p : ∀ a y,
  string_forallb no_slash p = true →
  startswith (a +:+ String "/" y) p = startswith a p.
Proof.
  induction p as [|c p IH]; intros a y Hp; [by destruct a|].
  cbn [string_forallb] in Hp. apply andb_true_iff in Hp as [Hc Hp].
  destruct a as [|b a].
  - rewrite append_nil_l. cbn [startswith].
    unfold no_slash in Hc. apply negb_true_iff in Hc. by rewrite Hc.
  - rewrite append_cons. cbn [startswith]. by rewrite IH.
Qed.

Lemma lookbehind_values name before :
  startswith (string_rev_append name (String "/" before)) "seulav"
  = endswith name "values".
Proof.
  rewrite string_rev_append_rev.
  by rewrite (startswith_before_slash "seulav").
Qed.

Lemma digit_no_slash c : is_ascii_digit c = true → no_slash c = true.
Proof.
  unfold is_ascii_digit, no_slash, code. intros H.
  apply negb_true_iff, Ascii.eqb_neq. intros ->. discriminate H.
Qed.

Lemma digit_no_newline c :
  is_ascii_digit c = true → Ascii.eqb c "010" = false.
Proof.
  unfold is_ascii_digit, code. intros H.
  apply Ascii.eqb_neq. intros ->. discriminate H.
Qed.

Lemma index_no_slash idx :
  is_index idx = true → string_forallb no_slash idx = true.
Proof. apply string_forallb_impl. apply digit_no_slash. Qed.

Lemma at_end_cons c s : Ascii.eqb c "010" = false → at_end (String c s) = false.
Proof. intros Hc. destruct s; cbn [at_end]; [exact Hc | done]. Qed.

Lemma match_digits_end_name c s :
  is_name_start c = true → match_digits_end (String c s) = None.
Proof.
  unfold is_name_start. intros H.
  apply andb_true_iff in H as [H Hnl]. apply andb_true_iff in H as [Hd _].
  apply negb_true_iff in Hd, Hnl.
  cbn [match_digits_end]. by rewrite (at_end_cons _ _ Hnl), Hd.
Qed.

Lemma match_digits_slash_name c s :
  is_name_start c = true → match_digits_slash (String c s) = None.
Proof.
  unfold is_name_start. intros H.
  apply andb_true_iff in H as [H _]. apply andb_true_iff in H as [Hd Hs].
  apply negb_true_iff in Hd, Hs.
  cbn [match_digits_slash]. by rewrite Hs, Hd.
Qed.

Lemma match_digits_end_index idx :
  is_index idx = true → match_digits_end idx = Some (String.length idx).
Proof.
  unfold is_index. induction idx as [|c idx IH]; intros H; [done|].
  cbn [string_forallb] in H. apply andb_true_iff in H as [Hc H].
  cbn [match_digits_end String.length].
  rewrite (at_end_cons _ _ (digit_no_newline _ Hc)), Hc, (IH H). done.
Qed.

Lemma match_digits_end_inner idx c s :
  is_index idx = true →
  match_digits_end (idx +:+ String "/" (String c s)) = None.
Proof.
  unfold is_index. induction idx as [|d idx IH]; intros H.
  - rewrite append_nil_l. done.
  - cbn [string_forallb] in H. apply andb_true_iff in H as [Hd H].
    rewrite append_cons. cbn [match_digits_end].
    rewrite (at_end_cons _ _ (digit_no_newline _ Hd)), Hd, (IH H). done.
Qed.

Lemma match_digits_slash_index idx s :
  is_index idx = true →
  match_digits_slash (idx +:+ String "/" s) = Some (S (String.length idx)).
Proof.
  unfold is_index. induction idx as [|d idx IH]; intros H.
  - rewrite append_nil_l. done.
  - cbn [string_forallb] in H. apply andb_true_iff in H as [Hd H].
    rewrite append_cons. cbn [match_digits_slash String.length].
    pose proof (digit_no_slash _ Hd) as Hs. unfold no_slash in Hs.
    apply negb_true_iff in Hs. rewrite Hs, Hd, (IH H). done.
Qed.

Lemma match_digits_slash_end idx :
  is_index idx = true → match_digits_slash idx = None.
Proof.
  unfold is_index. induction idx as [|d idx IH]; intros H; [done|].
  cbn [string_forallb] in H. apply andb_true_iff in H as [Hd H].
  cbn [match_digits_slash].
  pose proof (digit_no_slash _ Hd) as Hs. unfold no_slash in Hs.
  apply negb_true_iff in Hs. rewrite Hs, Hd, (IH H). done.
Qed.

Lemma unmatched_trailing_no_slash a : ∀ before b,
  string_forallb no_slash a = true →
  unmatched match_trailing_index before a b.
Proof.
  induction a as [|c a IH]; intros before b H; [done|].
  cbn [string_forallb] in H. apply andb_true_iff in H as [Hc H].
  unfold no_slash in Hc. apply negb_true_iff in Hc.
  split; [|by apply IH].
  unfold match_trailing_index. by rewrite Hc.
Qed.

Lemma unmatched_segment_no_slash a : ∀ before b,
  string_forallb no_slash a = true →
  unmatched match_index_segment before a b.
Proof.
  induction a as [|c a IH]; intros before b H; [done|].
  cbn [string_forallb] in H. apply andb_true_iff in H as [Hc H].
  unfold no_slash in Hc. apply negb_true_iff in Hc.
  split; [|by apply IH].
  unfold match_index_segment. by rewrite Hc.
Qed.

Lemma name_start_no_slash c : is_name_start c = true → no_slash c = true.
Proof.
  unfold is_name_start, no_slash. intros H.
  apply andb_true_iff in H as [H _]. by apply andb_true_iff in H as [_ H].
Qed.

Lemma unmatched_trailing_name name before b :
  is_name name = true →
  unmatched match_trailing_index before (String "/" name) b.
Proof.
  destruct name as [|c r]; [done|]. cbn [is_name]. intros H.
  apply andb_true_iff in H as [Hc Hr]. split.
  - rewrite append_cons. unfold match_trailing_index.
    rewrite (match_digits_end_name _ _ Hc). by destruct (_ && _).
  - apply unmatched_trailing_no_slash. cbn [string_forallb].
    by rewrite (name_start_no_slash _ Hc), Hr.
Qed.

Lemma unmatched_segment_name name before b :
  is_name name = true →
  unmatched match_index_segment before (String "/" name) b.
Proof.
  destruct name as [|c r]; [done|]. cbn [is_name]. intros H.
  apply andb_true_iff in H as [Hc Hr]. split.
  - rewrite append_cons. unfold match_index_segment.
    rewrite (match_digits_slash_name _ _ Hc). done.
  - apply unmatched_segment_no_slash. cbn [string_forallb].
    by rewrite (name_start_no_slash _ Hc), Hr.
Qed.

Lemma render_cons_shape (seg : segment) rest :
  is_name seg.1 = true →
  ∃ c r, render (seg :: rest) = String "/" (String c r)
         ∧ is_name_start c = true.
Proof.
  destruct seg as [[|c r] idx]; [done|]. cbn [fst is_name]. intros H.
  apply andb_true_iff in H as [Hc _].
  exists c. eexists. split; [|exact Hc]. cbn [render].
  by rewrite !append_cons, append_nil_l.
Qed.

Lemma trailing_index_replaced_cons_shape (seg : segment) rest :
  is_name seg.1 = true →
  ∃ c r, trailing_index_replaced (seg :: rest) = String "/" (String c r)
         ∧ is_name_start c = true.
Proof.
  destruct seg as [[|c r] idx]; [done|]. cbn [fst is_name]. intros H.
  apply andb_true_iff in H as [Hc _].
  exists c. eexists. split; [|exact Hc]. cbn [trailing_index_replaced].
  by rewrite !append_cons, append_nil_l.
Qed.

Lemma well_formed_cons (seg : segment) rest :
  well_formed (seg :: rest) = true →
  is_name seg.1 = true ∧ from_option is_index true seg.2 = true
  ∧ well_formed rest = true.
Proof.
  unfold well_formed. cbn [forallb]. intros H.
  apply andb_true_iff in H as [H Hrest].
  by apply andb_true_iff in H as [Hname Hidx].
Qed.

(** The first substitution changes the index of the last segment only. *)
Lemma trailing_index_pass path : ∀ before,
  well_formed path = true →
  re_sub match_trailing_index "/n" O before (render path)
  = trailing_index_replaced path.
Proof.
  induction path as [|[name idx] rest IH]; intros before Hwf; [done|].
  apply well_formed_cons in Hwf as (Hname & Hidx & Hrest).
  cbn [fst snd] in Hname, Hidx.
  cbn [render trailing_index_replaced].
  rewrite !(append_cons "/"), !append_nil_l.
  rewrite <- !(append_cons "/" name).
  rewrite (re_sub_unmatched _ _ (String "/" name))
    by by apply unmatched_trailing_name.
  f_equal. cbn [string_rev_append].
  destruct idx as [i|]; [|rewrite !append_nil_l; by apply IH].
  cbn [from_option] in Hidx.
  rewrite !(append_cons "/"), !append_nil_l.
  destruct rest as [|seg rest].
  - cbn [render trailing_index_replaced]. rewrite !append_nil_r.
    cbn [re_sub]. unfold match_trailing_index at 1.
    rewrite lookbehind_values, (match_digits_end_index _ Hidx).
    cbn [Ascii.eqb Bool.eqb andb fmap option_fmap option_map].
    destruct (endswith name "values"); cbn [negb].
    + f_equal.
      rewrite <- (append_nil_r i) at 1.
      rewrite re_sub_unmatched
        by by apply unmatched_trailing_no_slash, index_no_slash.
      cbn [re_sub]. by rewrite append_nil_r.
    + cbn [Nat.sub]. rewrite Nat.sub_0_r.
      rewrite <- (append_nil_r i) at 2.
      rewrite <- (Nat.add_0_r (String.length i)).
      rewrite re_sub_skip. cbn [re_sub]. done.
  - assert (is_name seg.1 = true) as Hseg.
    { by apply well_formed_cons in Hrest as (? & _). }
    destruct (render_cons_shape seg rest Hseg) as (c & r & Hshape & Hc).
    cbn [re_sub]. unfold match_trailing_index at 1.
    rewrite Hshape at 1. rewrite (match_digits_end_inner _ _ _ Hidx).
    replace (if Ascii.eqb "/" "/" &&
                negb (startswith (string_rev_append name (String "/" before))
                                 "seulav")
             then S <$> None else None) with (@None nat)
      by by destruct (_ && _).
    f_equal.
    rewrite re_sub_unmatched
      by by apply unmatched_trailing_no_slash, index_no_slash.
    f_equal. by apply IH.
Qed.

Lemma re_sub_segment_slash_name before c r :
  is_name_start c = true →
  re_sub match_index_segment "/n/" O before (String "/" (String c r))
  = String "/" (re_sub match_index_segment "/n/" O (String "/" before)
                       (String c r)).
Proof.
  intros Hc.
  change (String "/" (String c r)) with ("/" +:+ String c r) at 1.
  rewrite re_sub_unmatched; [by rewrite append_cons, append_nil_l|].
  split; [|done]. rewrite append_nil_l. unfold match_index_segment.
  by rewrite (match_digits_slash_name _ _ Hc).
Qed.

(** The second substitution replaces every index that is followed by a
    further segment. *)
Lemma index_segment_pass path : ∀ before,
  well_formed path = true →
  re_sub match_index_segment "/n/" O before (trailing_index_replaced path)
  = path_key path.
Proof.
  induction path as [|[name idx] rest IH]; intros before Hwf; [done|].
  apply well_formed_cons in Hwf as (Hname & Hidx & Hrest).
  cbn [fst snd] in Hname, Hidx.
  cbn [trailing_index_replaced path_key].
  rewrite !(append_cons "/"), !append_nil_l.
  rewrite <- !(append_cons "/" name).
  rewrite (re_sub_unmatched _ _ (String "/" name))
    by by apply unmatched_segment_name.
  f_equal. cbn [string_rev_append].
  destruct idx as [i|]; [|rewrite !append_nil_l; by apply IH].
  cbn [from_option] in Hidx.
  destruct rest as [|seg rest].
  - cbn [trailing_index_replaced path_key]. rewrite !append_nil_r.
    destruct (endswith name "values"); [|done].
    rewrite !(append_cons "/"), !append_nil_l.
    cbn [re_sub]. unfold match_index_segment at 1.
    rewrite (match_digits_slash_end _ Hidx).
    cbn [Ascii.eqb Bool.eqb fmap option_fmap option_map]. f_equal.
    rewrite <- (append_nil_r i) at 1.
    rewrite re_sub_unmatched
      by by apply unmatched_segment_no_slash, index_no_slash.
    cbn [re_sub]. by rewrite append_nil_r.
  - assert (is_name seg.1 = true) as Hseg.
    { by apply well_formed_cons in Hrest as (? & _). }
    destruct (trailing_index_replaced_cons_shape seg rest Hseg)
      as (c & r & Hshape & Hc).
    specialize (IH (string_rev_append i
                      (String "/" (string_rev_append name
                                     (String "/" before)))) Hrest).
    rewrite Hshape in *.
    rewrite !(append_cons "/"), !append_nil_l.
    cbn [re_sub]. unfold match_index_segment at 1.
    rewrite (match_digits_slash_index _ _ Hidx).
    cbn [Ascii.eqb Bool.eqb fmap option_fmap option_map Nat.sub].
    replace (S (String.length i)) with (String.length i + 1)%nat by lia.
    rewrite re_sub_skip.
    rewrite (re_sub_segment_slash_name _ _ _ Hc) in IH.
    rewrite <- IH.
    rewrite !append_cons, append_nil_l. reflexivity.
Qed.

(** The key under which [_load_preloaded_json] looks a node up in the
    static document is the node in lower case with every index replaced by
    [n]; the one index that is kept is that of a last segment whose name
    ends in [values]. *)
Theorem node_key_path node path :
  lower node = render path →
  well_formed path = true →
  node_key node = path_key path.
Proof.
  intros Hnode Hwf. unfold node_key. rewrite Hnode.
  rewrite trailing_index_pass by done. by apply index_segment_pass.
Qed.

Lemma node_key_path_witness :
  node_key "/DEV1234/Demods/3/Values/1"
  = path_key [("dev1234", None); ("demods", Some "3");
              ("values", Some "1")]%string.
Proof.
  apply node_key_path; reflexivity.
Defined.

(** ** [_load_preloaded_json] *)

Lemma dict_get_set_ne {V} k k' (v : V) d :
  k ≠ k' → dict_get k' (dict_set k v d) = dict_get k' d.
Proof.
  intros Hne. induction d as [|[k0 v0] d IH]; cbn [dict_set dict_get].
  - by apply String.eqb_neq in Hne as ->.
  - destruct (String.eqb k0 k) eqn:E; cbn [dict_get].
    + apply String.eqb_eq in E as ->.
      by apply String.eqb_neq in Hne as ->.
    + by rewrite IH.
Qed.

(** Every entry of the mapping that [_load_preloaded_json] returns comes
    from a listed node and from the entry of the static document under the
    key of that node: the key of the mapping is the node in lower case, the
    [Node] field is the key of the mapping in upper case, and every other
    field is the one of the document. *)
Theorem preloaded_entries_from_document X ser sess file (s : system X)
    raw d nodes w :
  read_text X file (world s) = Some raw →
  json_loads X (replace (replace raw "devxxxx" (lower ser))
                        "DEVXXXX" (upper ser)) = Ok (JObj d) →
  objects_only d →
  listNodes X sess ("/" +:+ ser +:+ "/*") (world s) = (Ok nodes, w) →
  ∃ m s',
    _load_preloaded_json X ser sess file s = (Ok (Some m), s') ∧
    ∀ k e, m !! k = Some e →
      ∃ node fields,
        node ∈ nodes ∧ k = lower node ∧
        dict_get (node_key node) d = Some (JObj fields) ∧ fields ≠ [] ∧
        json_getitem e "Node" = Ok (JStr (upper k)) ∧
        ∀ f, f ≠ "Node"%string →
             json_getitem e f = json_getitem (JObj fields) f.
Proof.
  intros Hread Hloads Hd Hlist. eexists _, _. split.
  - by eapply load_preloaded_json_run.
  - intros k e Hk.
    apply register_nodes_origin in Hk as [Hk|(node & Hin & <- & He)];
      [by rewrite lookup_empty in Hk|].
    unfold entry_for in He.
    destruct (dict_get (node_key node) d) as [[| | | | |[|f0 fs]]|] eqn:Hget;
      try discriminate He.
    assert (e = JObj (dict_set "Node" (JStr (upper node)) (f0 :: fs)))
      as -> by congruence.
    exists node, (f0 :: fs).
    split; [done|]. split; [done|]. split; [done|]. split; [done|]. split.
    + cbn [json_getitem]. by rewrite dict_get_set, upper_lower.
    + intros f Hf. cbn [json_getitem]. by rewrite dict_get_set_ne.
Qed.

Lemma preloaded_entries_from_document_witness :
  ∃ m s',
    _load_preloaded_json (example 0 (Ok ""%string)) "dev1234" tt nodedoc_hf2
      (example_start 0 (Ok ""%string)) = (Ok (Some m), s') ∧
    ∃ e, m !! "/dev1234/demods/3/rate"%string = Some e ∧
         json_getitem e "Properties" = Ok (JStr "Read, Write, Setting").
Proof.
  destruct (preloaded_entries_from_document (example 0 (Ok ""%string))
              "dev1234" tt nodedoc_hf2 (example_start 0 (Ok ""%string))
              "/devxxxx/demods/n/rate"
              [("/dev1234/demods/n/rate"%string,
                JObj [("Node"%string, JStr "/DEV1234/DEMODS/N/RATE");
                      ("Properties"%string, JStr "Read, Write, Setting")])]
              example_nodes tt eq_refl eq_refl
              ltac:(repeat constructor; by eexists) eq_refl)
    as (m & s' & Hrun & _).
  exists m, s'. split; [exact Hrun|].
  injection Hrun as <- _. eexists. split; reflexivity.
Defined.

(** The loop, for nodes whose value in the document is an object or counts
    as false. *)
Lemma match_nodes_ok_run X d nodes : ∀ acc (s : system X),
  Forall (node_ok d) nodes →
  match_nodes X (JObj d) nodes acc s
  = (Ok (foldl (register_node d) acc nodes),
     {| world := world s; calls := calls s;
        logged := logged s
                  ++ (unknown_node_record
                      <$> List.filter (skipped d) nodes);
        warned := warned s |}).
Proof.
  induction nodes as [|node nodes IH]; intros acc s Hok.
  - cbn. rewrite app_nil_r. by destruct s.
  - apply Forall_cons in Hok as [Hnode Hok].
    cbn [match_nodes foldl List.filter].
    unfold bind at 1, lift_result at 1, json_get.
    unfold register_node at 2, skipped at 1, entry_for.
    unfold node_ok in Hnode.
    destruct (dict_get (node_key node) d) as [v|] eqn:Hget;
      cbn [default from_option id].
    + destruct v as [| | | | |[|f fs]]; try rewrite Hnode;
        cbn [truthy]; cbv beta iota;
        try (destruct (startswith node "/zi/"); cbn [negb];
             [ by apply IH
             | unfold bind at 1, log at 1; cbv beta iota; rewrite IH by done;
               cbn; by rewrite <- app_assoc ]).
      unfold bind at 1, lift_result at 1. cbn [json_setitem].
      cbv beta iota. by apply IH.
    + cbn [truthy].
      destruct (startswith node "/zi/"); cbn [negb].
      * by apply IH.
      * unfold bind at 1, log at 1. cbv beta iota. rewrite IH by done. cbn.
        by rewrite <- app_assoc.
Qed.

Lemma bind_assoc {S A B C} (m : M S A) (k : A → M S B) (k' : B → M S C) s :
  bind (bind m k) k' s = bind m (λ a, bind (k a) k') s.
Proof. unfold bind. by destruct (m s) as [[a|e] s']. Qed.

Lemma match_nodes_app X doc pre : ∀ post acc (s : system X),
  match_nodes X doc (pre ++ post) acc s
  = (m ←! match_nodes X doc pre acc; match_nodes X doc post m) s.
Proof.
  induction pre as [|node pre IH]; intros post acc s; [reflexivity|].
  cbn [app match_nodes]. rewrite bind_assoc.
  apply bind_ext. intros v s1.
  destruct (truthy v).
  - rewrite bind_assoc. apply bind_ext. intros v' s2. apply IH.
  - destruct (negb (startswith node "/zi/")); [|apply IH].
    rewrite bind_assoc. apply bind_ext. intros [] s2. apply IH.
Qed.

(** A value of the static document that counts as true and is no object
    ends the load with a [TypeError], at the first listed node with such a
    value: the warnings for the nodes before it have been logged, and the
    mapping built from them is lost. *)
Theorem load_preloaded_json_malformed_entry X ser sess file (s : system X)
    raw d pre node post v w :
  read_text X file (world s) = Some raw →
  json_loads X (replace (replace raw "devxxxx" (lower ser))
                        "DEVXXXX" (upper ser)) = Ok (JObj d) →
  listNodes X sess ("/" +:+ ser +:+ "/*") (world s)
  = (Ok (pre ++ node :: post), w) →
  Forall (node_ok d) pre →
  dict_get (node_key node) d = Some v →
  truthy v = true →
  (∀ fields, v ≠ JObj fields) →
  ∃ msg,
    _load_preloaded_json X ser sess file s
    = (Raise (TypeError msg),
       {| world := w; calls := calls s ++ [ListNodes ("/" +:+ ser +:+ "/*")];
          logged := logged s
                    ++ (unknown_node_record
                        <$> List.filter (skipped d) pre);
          warned := warned s |}).
Proof.
  intros Hread Hloads Hlist Hpre Hget Htrue Hobj.
  unfold _load_preloaded_json. rewrite Hread.
  unfold bind at 1, lift_result at 1. rewrite Hloads.
  unfold bind at 1, ext at 1. rewrite Hlist.
  unfold bind at 1. rewrite match_nodes_app.
  unfold bind at 1. rewrite match_nodes_ok_run by done.
  cbn [match_nodes]. unfold bind at 1, lift_result at 1, json_get.
  rewrite Hget. cbn [default from_option id]. rewrite Htrue.
  unfold bind at 1, lift_result at 1.
  destruct v as [| |n|t|l|fields]; try discriminate Htrue;
    try (by eexists); by destruct (Hobj fields).
Qed.

Lemma load_preloaded_json_malformed_entry_witness :
  ∃ msg s',
    _load_preloaded_json malformed_document_server "dev1234" tt nodedoc_hf2
      malformed_document_start = (Raise (TypeError msg), s').
Proof.
  destruct (load_preloaded_json_malformed_entry malformed_document_server
              "dev1234" tt nodedoc_hf2 malformed_document_start
              "/devxxxx/demods/n/rate" malformed_document []
              "/dev1234/demods/3/rate"
              ["/dev1234/unknown/0/x"; "/zi/about/version"]%string
              (JStr "Read, Write, Setting") tt
              eq_refl eq_refl eq_refl (Forall_nil_2 _) eq_refl eq_refl
              ltac:(discriminate)) as [msg Hrun].
  exists msg. eexists. exact Hrun.
Defined.

(** The static document is parsed before the data server is asked for the
    nodes, and it is looked into only when a node is listed: a text that
    [json.loads] refuses ends the load without a call to the data server; a
    document that is no object gives the empty mapping when no node is
    listed, and an [AttributeError] otherwise. *)
Theorem load_preloaded_json_document_errors X ser sess file (s : system X)
    raw :
  read_text X file (world s) = Some raw →
  match json_loads X (replace (replace raw "devxxxx" (lower ser))
                              "DEVXXXX" (upper ser)) with
  | Raise e => _load_preloaded_json X ser sess file s = (Raise e, s)
  | Ok doc =>
      (∀ d, doc ≠ JObj d) →
      ∀ nodes w,
        listNodes X sess ("/" +:+ ser +:+ "/*") (world s) = (Ok nodes, w) →
        ∃ r,
          _load_preloaded_json X ser sess file s
          = (r, {| world := w;
                   calls := calls s ++ [ListNodes ("/" +:+ ser +:+ "/*")];
                   logged := logged s; warned := warned s |}) ∧
          match nodes with
          | [] => r = Ok (Some ∅)
          | _ :: _ => ∃ msg, r = Raise (AttributeError msg)
          end
  end.
Proof.
  intros Hread. unfold _load_preloaded_json. rewrite Hread.
  unfold bind at 1, lift_result at 1.
  destruct (json_loads X _) as [doc|e]; [|reflexivity].
  intros Hdoc nodes w Hlist.
  unfold bind at 1, ext at 1. rewrite Hlist. unfold bind at 1.
  destruct nodes as [|node nodes].
  - eexists. split; reflexivity.
  - cbn [match_nodes]. unfold bind at 1, lift_result at 1.
    destruct doc as [| | | | |d]; cbn [json_get];
      try (eexists; split; [reflexivity | by eexists]).
    by destruct (Hdoc d).
Qed.

Lemma load_preloaded_json_document_errors_witness :
  _load_preloaded_json unparsable_document_server "dev1234" tt nodedoc_hf2
    unparsable_document_start
  = (Raise (ValueError "Expecting value"), unparsable_document_start).
Proof.
  exact (load_preloaded_json_document_errors unparsable_document_server
           "dev1234" tt nodedoc_hf2 unparsable_document_start
           "/devxxxx/demods/n/rate" eq_refl).
Defined.

(** For a device type that contains ["HF2"], when the resource file is
    there, the constructor lists the nodes of the device once, between the
    fetch of the options and the making of the node tree, and hands the
    mapping matched from the static document to the node tree. *)
Theorem init_with_static_document X cls ser dt sess (s : system X)
    options w1 raw d nodes w2 tree w3 w4 :
  getString X sess ("/" +:+ ser +:+ "/features/options") (world s)
  = (Ok options, w1) →
  str_contains "HF2" dt = true →
  read_text X nodedoc_hf2 w1 = Some raw →
  json_loads X (replace (replace raw "devxxxx" (lower ser))
                        "DEVXXXX" (upper ser)) = Ok (JObj d) →
  objects_only d →
  listNodes X sess ("/" +:+ ser +:+ "/*") w1 = (Ok nodes, w2) →
  new_NodeTree X sess ser ["/" +:+ ser +:+ "/*"]
    (Some (foldl (register_node d) ∅ nodes)) w2 = (Ok tree, w3) →
  update_nodes X tree cls w3 = (Ok tt, w4) →
  __init__ X cls ser dt sess s
  = (Ok {| _serial := ser; _device_type := dt; _session := sess;
           _options := options; _streaming_nodes := None; _root := tree;
           device_options_value := None |},
     {| world := w4;
        calls := (((calls s
                    ++ [GetString ("/" +:+ ser +:+ "/features/options")])
                   ++ [ListNodes ("/" +:+ ser +:+ "/*")])
                  ++ [NewNodeTree ser ["/" +:+ ser +:+ "/*"]
                        (Some (foldl (register_node d) ∅ nodes))])
                 ++ [UpdateNodes cls];
        logged := logged s
                  ++ (unknown_node_record <$> List.filter (skipped d) nodes);
        warned := warned s |}).
Proof.
  intros Hget Hhf2 Hread Hloads Hd Hlist Htree Hupdate.
  unfold __init__. unfold bind at 1, try_except, ext at 1. rewrite Hget.
  unfold bind at 1. rewrite Hhf2.
  erewrite (load_preloaded_json_run X d Hd); [|exact Hread|exact Hloads|
                                               exact Hlist].
  unfold bind at 1, ext at 1. cbn [world]. rewrite Htree.
  unfold bind at 1, ext at 1. cbn [world]. rewrite Hupdate. reflexivity.
Qed.

Lemma init_with_static_document_witness :
  ∃ i s',
    __init__ (example 0 (Ok "PLL"%string)) "HF2" "dev1234" "HF2LI" tt
      (example_start 0 (Ok "PLL"%string)) = (Ok i, s') ∧
    logged s' = [LogWarning "unkown node /dev1234/unknown/0/x"].
Proof.
  eexists _, _. split.
  - apply (init_with_static_document (example 0 (Ok "PLL"%string)) "HF2"
             "dev1234" "HF2LI" tt (example_start 0 (Ok "PLL"%string))
             "PLL" tt "/devxxxx/demods/n/rate"
             [("/dev1234/demods/n/rate"%string,
               JObj [("Node"%string, JStr "/DEV1234/DEMODS/N/RATE");
                     ("Properties"%string, JStr "Read, Write, Setting")])]
             example_nodes tt tt tt tt eq_refl eq_refl eq_refl eq_refl
             ltac:(repeat constructor; by eexists) eq_refl eq_refl eq_refl).
  - reflexivity.
Defined.

Lemma register_nodes_lookup d nodes k e :
  foldl (register_node d) ∅ nodes !! k = Some e
  ↔ ∃ node, node ∈ nodes ∧ lower node = k ∧ entry_for d node = Some e.
Proof.
  split.
  - intros [H|H]%register_nodes_origin; [by rewrite lookup_empty in H|done].
  - intros (node & Hin & <- & He). apply register_nodes_entry; auto.
Qed.

Lemma register_nodes_same_names d nodes nodes' :
  (∀ k, k ∈ lower <$> nodes → k ∈ lower <$> nodes') →
  ∀ k e, foldl (register_node d) ∅ nodes !! k = Some e →
         foldl (register_node d) ∅ nodes' !! k = Some e.
Proof.
  intros Hsub k e (node & Hin & <- & He)%register_nodes_lookup.
  destruct (proj1 (list_elem_of_fmap _ _ _)
              (Hsub (lower node) (list_elem_of_fmap_2 lower _ _ Hin)))
    as (node' & Heq & Hin').
  apply register_nodes_lookup. exists node'. split; [done|].
  split; [done|]. by rewrite <- (entry_for_lower d node node').
Qed.

(** The mapping that [_load_preloaded_json] returns depends on the names of
    the listed nodes in lower case only: two listings with the same names,
    in whatever order, spelling or number, give the same mapping. *)
Theorem preloaded_mapping_of_listed_names X ser sess file (s s' : system X)
    raw raw' d nodes nodes' w w' :
  read_text X file (world s) = Some raw →
  read_text X file (world s') = Some raw' →
  json_loads X (replace (replace raw "devxxxx" (lower ser))
                        "DEVXXXX" (upper ser)) = Ok (JObj d) →
  json_loads X (replace (replace raw' "devxxxx" (lower ser))
                        "DEVXXXX" (upper ser)) = Ok (JObj d) →
  objects_only d →
  listNodes X sess ("/" +:+ ser +:+ "/*") (world s) = (Ok nodes, w) →
  listNodes X sess ("/" +:+ ser +:+ "/*") (world s') = (Ok nodes', w') →
  (∀ k, k ∈ lower <$> nodes ↔ k ∈ lower <$> nodes') →
  ∃ m,
    (_load_preloaded_json X ser sess file s).1 = Ok (Some m) ∧
    (_load_preloaded_json X ser sess file s').1 = Ok (Some m).
Proof.
  intros Hread Hread' Hloads Hloads' Hd Hlist Hlist' Hnames.
  rewrite (load_preloaded_json_run X d Hd ser sess file s raw nodes w)
    by done.
  rewrite (load_preloaded_json_run X d Hd ser sess file s' raw' nodes' w')
    by done.
  eexists. split; [reflexivity|]. cbn [fst]. do 2 f_equal.
  apply map_eq. intros k.
  destruct (foldl (register_node d) ∅ nodes !! k) as [e|] eqn:E.
  - apply (register_nodes_same_names d nodes nodes'); [|done].
    intros k'. apply Hnames.
  - destruct (foldl (register_node d) ∅ nodes' !! k) as [e|] eqn:E';
      [|done].
    apply (register_nodes_same_names d nodes' nodes) in E';
      [congruence|]. intros k'. apply Hnames.
Qed.

Lemma preloaded_mapping_of_listed_names_witness :
  ∃ m,
    (_load_preloaded_json relisting_server "dev1234" tt nodedoc_hf2
       (relisting_start true)).1 = Ok (Some m) ∧
    (_load_preloaded_json relisting_server "dev1234" tt nodedoc_hf2
       (relisting_start false)).1 = Ok (Some m).
Proof.
  apply (preloaded_mapping_of_listed_names relisting_server "dev1234" tt
           nodedoc_hf2 (relisting_start true) (relisting_start false)
           "/devxxxx/demods/n/rate" "/devxxxx/demods/n/rate"
           [("/dev1234/demods/n/rate"%string,
             JObj [("Node"%string, JStr "/DEV1234/DEMODS/N/RATE");
                   ("Properties"%string, JStr "Read, Write, Setting")])]
           example_nodes
           ["/zi/about/version"; "/DEV1234/UNKNOWN/0/X";
            "/DEV1234/DEMODS/3/RATE"; "/dev1234/demods/3/rate"]%string
           true false eq_refl eq_refl eq_refl eq_refl
           ltac:(repeat constructor; by eexists) eq_refl eq_refl).
  intros k. vm_compute fmap.
  rewrite !elem_of_cons, !elem_of_nil. tauto.
Defined.

(** ** [__repr__] *)

Lemma replace_newline s :
  replace s (String "010" "") "," = string_map newline_to_comma s.
Proof.
  unfold replace. induction s as [|c s IH]; [done|].
  cbn [replace_from startswith string_map String.length Nat.sub].
  unfold newline_to_comma at 1. rewrite (Ascii.eqb_sym "010" c).
  destruct (Ascii.eqb c "010"); cbn [andb].
  - destruct s; rewrite append_cons, append_nil_l, IH; done.
  - destruct s; by rewrite IH.
Qed.

Lemma string_map_app f a b :
  string_map f (a +:+ b) = string_map f a +:+ string_map f b.
Proof.
  induction a as [|c a IH]; [cbn [string_map]; by rewrite !append_nil_l|].
  rewrite append_cons. cbn [string_map]. by rewrite append_cons, IH.
Qed.

Lemma newline_to_comma_no_newline s :
  string_forallb (λ c, negb (Ascii.eqb c "010"))
                 (string_map newline_to_comma s) = true.
Proof.
  induction s as [|c s IH]; [done|].
  cbn [string_map string_forallb]. rewrite IH, andb_true_r.
  unfold newline_to_comma. by destruct (Ascii.eqb c "010") eqn:E; rewrite ?E.
Qed.

(** The text that [__repr__] gives is the class name followed, in
    parentheses, by the device type, the options and the serial: the options
    stand in parentheses of their own with a comma for every line break, so
    that they take one line, and are left out with their parentheses when
    there are none. *)
Theorem repr_text {X} cls (i : instance X) :
  ∃ options,
    __repr__ cls i
    = cls +:+ "(" +:+ _device_type i +:+ options +:+ "," +:+ _serial i
      +:+ ")" ∧
    options
    = (if String.eqb (_options i) "" then ""
       else "(" +:+ string_map newline_to_comma (_options i) +:+ ")") ∧
    string_forallb (λ c, negb (Ascii.eqb c "010")) options = true.
Proof.
  eexists. split; [|split].
  - unfold __repr__, serial. reflexivity.
  - rewrite replace_newline.
    destruct (String.eqb (_options i) ""); cbn [negb]; [done|].
    by rewrite !string_map_app.
  - rewrite replace_newline. apply newline_to_comma_no_newline.
Qed.
